(** * GeoIpTransportMap: a Postfix TCP transport map that routes by the
      country of a domain's MX hosts.

    Shallow embedding of [GeoIpTransportMap.go] and the properties of its
    startup validation ([argsHandler]), its resolver ([getResult]) and its
    connection handler ([handleConnection]).

    Go strings are byte sequences: they are modelled as [string] (a list of
    8-bit [ascii]), [len] as [String.length]. The process-wide variables
    [destinationMap] and [defaultTarget] are the record [Globals]; the map
    is a [gmap string (list string)]. *)

From Stdlib Require Import String Ascii List Arith Lia Bool.
From stdpp Require Import gmap strings list fin_maps.

Import ListNotations.
Open Scope string_scope.
Open Scope list_scope.

Module GeoIpTransportMap.

(** ** Go standard library: strings *)

Module strings.

(** [strings.Split(s, sep)] for a one-byte separator: the pieces between
    the occurrences of [sep], always [Count(s, sep) + 1] of them. *)
Fixpoint Split (s : string) (sep : ascii) : list string :=
  match s with
  | EmptyString => [EmptyString]
  | String c rest =>
      if Ascii.eqb c sep then EmptyString :: Split rest sep
      else match Split rest sep with
           | [] => [String c EmptyString]
           | piece :: pieces => String c piece :: pieces
           end
  end.

(** [strings.Count(s, sep)] for a one-byte separator. *)
Fixpoint Count (s : string) (sep : ascii) : nat :=
  match s with
  | EmptyString => 0
  | String c rest => (if Ascii.eqb c sep then 1 else 0) + Count rest sep
  end.

(** [c < utf8.RuneSelf] for every byte of [s]. *)
Fixpoint isASCII (s : string) : bool :=
  match s with
  | EmptyString => true
  | String c rest => (nat_of_ascii c <? 128)%nat && isASCII rest
  end.

(** The ASCII branch of [ToUpper]: ['a'..'z'] lose [('a' - 'A')]. *)
Definition upperByte (c : ascii) : ascii :=
  let n := nat_of_ascii c in
  if ((97 <=? n) && (n <=? 122))%nat then ascii_of_nat (n - 32) else c.

Fixpoint mapBytes (f : ascii -> ascii) (s : string) : string :=
  match s with
  | EmptyString => EmptyString
  | String c rest => String (f c) (mapBytes f rest)
  end.

Section ToUpper.
(** [strings.Map(unicode.ToUpper, s)], the path [ToUpper] takes for a
    string holding a byte outside ASCII. The Unicode case tables are
    not part of this program; they stay a parameter. *)
Variable unicodeUpper : string -> string.

Definition ToUpper (s : string) : string :=
  if isASCII s then mapBytes upperByte s else unicodeUpper s.
End ToUpper.

End strings.

(** ** Process-wide state *)

(** [var destinationMap map[string][]string] and [var defaultTarget string]. *)
Record Globals := mkGlobals {
  destinationMap : gmap string (list string);
  defaultTarget : string
}.

(** [destinationMap[key]]: a missing key reads as the nil slice. *)
Definition mapIndex (m : gmap string (list string)) (key : string) : list string :=
  default [] (m !! key).

(** What [init] leaves behind, with the [--default] flag stored by the
    command-line parser ([Destination: &defaultTarget]). *)
Definition initGlobals (defaultFlag : string) : Globals :=
  mkGlobals ∅ defaultFlag.

(** The invariant of a built table: keys have two bytes and no target list
    is empty. *)
Definition validTable (dm : gmap string (list string)) : Prop :=
  forall k l, dm !! k = Some l -> String.length k = 2 /\ l <> [].

(** ** Startup validation: [argsHandler] *)

(** The errors [argsHandler] builds with [errors.New]. *)
Inductive ConfigError :=
| EmptyMapping
| InvalidMappingFormat (value : string)
| InvalidCountryCode (country : string)
| InvalidTarget (country target : string)
| DefaultNotInMap (dflt : string).

Definition quote : string := String (ascii_of_nat 34) EmptyString.

Definition errorString (e : ConfigError) : string :=
  match e with
  | EmptyMapping => "Can't process with empty target mapping."
  | InvalidMappingFormat value => "Invalid mapping format: " +:+ value
  | InvalidCountryCode country => "Invalid country code: " +:+ country
  | InvalidTarget country target =>
      "Invalid target on " +:+ country +:+ ": " +:+ target
  | DefaultNotInMap dflt =>
      "Default target " +:+ quote +:+ dflt +:+ quote +:+ " not in target map."
  end.

(** The flags [argsHandler] reads from the [cli.Context]. *)
Record Context := mkContext {
  flagHelp : bool;
  flagTarget : list string
}.

(** How a call of [argsHandler] ends: [cli.ShowAppHelpAndExit(c, 1)] leaves
    the process, otherwise the function returns its [error] (nil is [None])
    and the globals are as it left them. *)
Inductive ArgsOutcome :=
| HelpExit
| Returned (err : option ConfigError) (g : Globals).

Definition colon : ascii := ":"%char.

Section Startup.
Variable unicodeUpper : string -> string.

Local Abbreviation ToUpper := (strings.ToUpper unicodeUpper).

(** The country token of a directive, as the loop reads it. *)
Definition countryOf (value : string) : string :=
  ToUpper (nth 0 (strings.Split value colon) EmptyString).

(** One iteration of [for _, value := range mapping]: the error it
    returns with, or the map after the [append]. *)
Definition addMapping (value : string) (dm : gmap string (list string))
  : ConfigError + gmap string (list string) :=
  let splitedMap := strings.Split value colon in
  if negb (length splitedMap =? 2)%nat then inl (InvalidMappingFormat value)
  else
    let country := ToUpper (nth 0 splitedMap EmptyString) in
    if negb (String.length country =? 2)%nat then inl (InvalidCountryCode country)
    else
      let target := nth 1 splitedMap EmptyString in
      if (String.length target <? 1)%nat then inl (InvalidTarget country target)
      else inr (<[country := mapIndex dm country ++ [target]]> dm).

(** The whole loop; an error ends it with the map as built so far. *)
Fixpoint addMappings (mapping : list string) (dm : gmap string (list string))
  : gmap string (list string) * option ConfigError :=
  match mapping with
  | [] => (dm, None)
  | value :: more =>
      match addMapping value dm with
      | inl e => (dm, Some e)
      | inr dm' => addMappings more dm'
      end
  end.

Definition argsHandler (c : Context) (g : Globals) : ArgsOutcome :=
  if flagHelp c then HelpExit
  else
    let mapping := flagTarget c in
    if (length mapping <? 1)%nat then Returned (Some EmptyMapping) g
    else
      match addMappings mapping (destinationMap g) with
      | (dm, Some e) => Returned (Some e) (mkGlobals dm (defaultTarget g))
      | (dm, None) =>
          let dflt := ToUpper (defaultTarget g) in
          match dm !! dflt with
          | None => Returned (Some (DefaultNotInMap dflt)) (mkGlobals dm dflt)
          | Some _ => Returned None (mkGlobals dm dflt)
          end
      end.

(** The start of [main]: an error from the argument handler ends in
    [log.Fatalf], which leaves the process; only after a nil error is
    [net.Listen] reached. *)
Inductive MainStart :=
| ProcessExit (code : nat)
| ReachesListen (g : Globals).

Definition mainStart (c : Context) (defaultFlag : string) : MainStart :=
  match argsHandler c (initGlobals defaultFlag) with
  | HelpExit => ProcessExit 1
  | Returned (Some _) _ => ProcessExit 1
  | Returned None g => ReachesListen g
  end.

End Startup.

(** ** Runtime: collaborators, the random source and the ways a call ends *)

(** A Go [(value, error)] pair: [Err] is a non-nil error with its text. *)
Inductive GoResult (A : Type) :=
| Ok (a : A)
| Err (msg : string).
Arguments Ok {A} a.
Arguments Err {A} msg.

(** [net.MX]. *)
Record MX := mkMX { Host : string; Pref : nat }.

(** [net.IP] is a byte slice. *)
Definition IP := list nat.

(** The part of [geoip2.Country] the program reads: [record.Country.IsoCode].
    The empty string is what a record without a country holds. *)
Record GeoRecord := mkGeoRecord { IsoCode : string }.

(** The lookups the program leaves to the network and to the database file:
    [net.LookupMX], [net.LookupIP], and [geoip2.Open] giving the reader whose
    [Country] method is then called. *)
Record Collaborators := mkCollaborators {
  LookupMX : string -> GoResult (list MX);
  LookupIP : string -> GoResult (list IP);
  geoOpen : GoResult (IP -> GoResult GeoRecord)
}.

(** What a run leaves behind, in order: every collaborator call with its
    answer, and every [conn.Write] and [conn.Close]. *)
Inductive Event :=
| CallLookupMX (domain : string) (answer : GoResult (list MX))
| CallLookupIP (host : string) (answer : GoResult (list IP))
| CallGeoOpen (opened : bool)
| CallGeoCountry (ip : IP) (answer : GoResult GeoRecord)
| ConnWrite (data : string)
| ConnClose.

(** The state threaded through a run: how many numbers were drawn from
    [math/rand] so far, and the events so far. *)
Record World := mkWorld { draws : nat; calls : list Event }.

(** A call returns, panics (which ends the process), or leaves the process
    through [log.Fatalf]. *)
Inductive Run (A : Type) :=
| Done (a : A) (w : World)
| Panicked (msg : string) (w : World)
| Exited (msg : string) (w : World).
Arguments Done {A} a w.
Arguments Panicked {A} msg w.
Arguments Exited {A} msg w.

Definition M (A : Type) := World -> Run A.

Definition ret {A} (a : A) : M A := fun w => Done a w.

Definition bind {A B} (m : M A) (k : A -> M B) : M B :=
  fun w =>
    match m w with
    | Done a w' => k a w'
    | Panicked msg w' => Panicked msg w'
    | Exited msg w' => Exited msg w'
    end.

Declare Scope go_scope.
Delimit Scope go_scope with go.
Notation "x <- m ;; k" := (bind m (fun x => k))
  (at level 100, m at next level, right associativity) : go_scope.
Notation "m ;;; k" := (bind m (fun _ => k))
  (at level 100, right associativity) : go_scope.
Open Scope go_scope.

Definition panic {A} (msg : string) : M A := fun w => Panicked msg w.
Definition fatal {A} (msg : string) : M A := fun w => Exited msg w.

Definition emit (e : Event) : M unit :=
  fun w => Done tt (mkWorld (draws w) (calls w ++ [e])).

(** [s[i]] on a slice: out of range is a run-time panic. *)
Definition sliceIndex {A} (s : list A) (i : nat) : M A :=
  match s !! i with
  | Some x => ret x
  | None => panic "index out of range"
  end.

Definition LF : ascii := ascii_of_nat 10.
Definition at_sign : ascii := "@"%char.

(** [fmt.Sprintf("200 relay:[%s]\n", destination)]. *)
Definition genPostfixResponse (destination : string) : string :=
  "200 relay:[" +:+ destination +:+ "]" +:+ String LF EmptyString.

(** [getEmailDomain]; its warning goes to the log only. *)
Definition getEmailDomain (email : string) : GoResult string :=
  let splitedEmail := strings.Split email at_sign in
  if negb (length splitedEmail =? 2)%nat
  then Err ("Email address invalid: " +:+ email)
  else Ok (nth 1 splitedEmail EmptyString).

Section Resolver.
(** The collaborators, and the numbers [math/rand] hands out: [rnd i] is the
    raw value behind the [i]-th draw of the process. [rand.Seed] with the
    clock, which [getResult] and [getIp] call before drawing, only changes
    which numbers these are. *)
Variable net : Collaborators.
Variable rnd : nat -> nat.

(** [rand.Intn(n)]: a number in [[0, n)]; it panics for [n <= 0]. *)
Definition Intn (n : nat) : M nat :=
  fun w =>
    if (n =? 0)%nat then Panicked "invalid argument to Intn" w
    else Done (rnd (draws w) mod n) (mkWorld (S (draws w)) (calls w)).

Definition getMx (domain : string) : M (GoResult (list MX)) :=
  let answer := LookupMX net domain in
  emit (CallLookupMX domain answer) ;;;
  ret answer.

Definition getIp (mx : MX) : M (GoResult IP) :=
  let answer := LookupIP net (Host mx) in
  emit (CallLookupIP (Host mx) answer) ;;;
  match answer with
  | Err _ => ret (Err "Get IP error from MX record(s).")
  | Ok ips =>
      let length := length ips in
      if (length =? 1)%nat then
        ip <- sliceIndex ips 0 ;; ret (Ok ip)
      else if (1 <? length)%nat then
        i <- Intn length ;;
        ip <- sliceIndex ips i ;; ret (Ok ip)
      else
        ret (Err ("Can't get IP from " +:+ quote +:+ "%s" +:+ quote
                  +:+ " MX record(s)." +:+ Host mx))
  end.

Definition getCountryByIp (ipAddress : IP) : M (GoResult string) :=
  match geoOpen net with
  | Err msg =>
      emit (CallGeoOpen false) ;;;
      fatal ("Open GeoIP DB file error: " +:+ msg)
  | Ok db =>
      emit (CallGeoOpen true) ;;;
      let answer := db ipAddress in
      emit (CallGeoCountry ipAddress answer) ;;;
      match answer with
      | Err msg => ret (Err msg)
      | Ok record => ret (Ok (IsoCode record))
      end
  end.

(** The first two lines of [getResult]: the fallback destination,
    [destinationMap[defaultTarget][rand.Intn(len(defaultTarget))]]. The
    bound of the draw is the length of the string [defaultTarget]. *)
Definition pickDefault (g : Globals) : M string :=
  i <- Intn (String.length (defaultTarget g)) ;;
  sliceIndex (mapIndex (destinationMap g) (defaultTarget g)) i.

(** [for _, mx := range mxs { ... }]: [continue] is the recursive call,
    [break] returns. *)
Fixpoint rangeMxs (g : Globals) (mxs : list MX) (destination : string)
  : M string :=
  match mxs with
  | [] => ret destination
  | mx :: later =>
      ipRes <- getIp mx ;;
      match ipRes with
      | Err _ => rangeMxs g later destination
      | Ok ip =>
          countryRes <- getCountryByIp ip ;;
          match countryRes with
          | Err _ => rangeMxs g later destination
          | Ok country =>
              match destinationMap g !! country with
              | Some value =>
                  i <- Intn (length value) ;;
                  sliceIndex value i
              | None => ret destination
              end
          end
      end
  end.

Definition getResult (g : Globals) (email : string) : M string :=
  destination <- pickDefault g ;;
  match getEmailDomain email with
  | Err _ => ret destination
  | Ok domain =>
      mxRes <- getMx domain ;;
      match mxRes with
      | Err _ => ret destination
      | Ok mxs => rangeMxs g mxs destination
      end
  end.

End Resolver.

(** ** The connection handler *)

(** [bufio.Reader.ReadBytes(delim)] over the bytes still to come on the
    connection: the data up to and including the first [delim], a nil error
    and the bytes after it; or, when the bytes end before a [delim] (the
    peer closed the connection), what was read and the error. *)
Fixpoint ReadBytes (incoming : string) (delim : ascii)
  : string * option string * string :=
  match incoming with
  | EmptyString => (EmptyString, Some "EOF", EmptyString)
  | String c rest =>
      if Ascii.eqb c delim then (String c EmptyString, None, rest)
      else
        let '(data, err, rest') := ReadBytes rest delim in
        (String c data, err, rest')
  end.

(** [data[:hi]]: a bound below zero or past the end is a run-time panic. *)
Definition sliceTo (data : string) (hi : Z) : M string :=
  if ((hi <? 0)%Z || (Z.of_nat (String.length data) <? hi)%Z)%bool
  then panic "slice bounds out of range"
  else ret (substring 0 (Z.to_nat hi) data).

Section Handler.
Variable net : Collaborators.
Variable rnd : nat -> nat.

(** The [for] loop of [handleConnection], one iteration per unit of
    [fuel]. *)
Fixpoint serve (fuel : nat) (g : Globals) (incoming : string) : M unit :=
  match fuel with
  | O => ret tt
  | S fuel' =>
      match ReadBytes incoming LF with
      | (_, Some _, _) => emit ConnClose
      | (data, None, rest) =>
          let length := Z.of_nat (String.length data) in
          dataString <- sliceTo data (length - 1) ;;
          result <- getResult net rnd g dataString ;;
          emit (ConnWrite (genPostfixResponse result)) ;;;
          serve fuel' g rest
      end
  end.

(** Every iteration that goes on takes at least one byte, so this fuel is
    never used up (see [serve_fuel]). *)
Definition handleConnection (g : Globals) (incoming : string) : M unit :=
  serve (S (String.length incoming)) g incoming.

End Handler.

(** What was written to the connection, in order. *)
Definition written (events : list Event) : list string :=
  omap (fun e => match e with ConnWrite data => Some data | _ => None end) events.

Definition worldOf {A} (r : Run A) : World :=
  match r with
  | Done _ w => w
  | Panicked _ w => w
  | Exited _ w => w
  end.

(** The world after some more events. *)
Definition addCalls (w : World) (events : list Event) : World :=
  mkWorld (draws w) (calls w ++ events).

(** The country lookups that came back without error. *)
Definition countryAnswered (e : Event) : bool :=
  match e with
  | CallGeoCountry _ (Ok _) => true
  | _ => false
  end.

Fixpoint countryAnswers (events : list Event) : nat :=
  match events with
  | [] => 0
  | e :: more => (if countryAnswered e then 1 else 0) + countryAnswers more
  end.

(** A line as it comes over the wire. *)
Definition wireLine (s : string) : string := s +:+ String LF EmptyString.

(** ** Data of the examples *)

(** Stands for the Unicode case tables where every string is ASCII and
    [ToUpper] never reaches them. *)
Definition asciiOnly : string -> string := fun s => s.

Definition exampleMapping : list string :=
  ["US:10.0.0.1"; "US:10.0.0.2"; "DE:10.0.0.3"].

Definition exampleTable : gmap string (list string) :=
  <["DE" := ["10.0.0.3"]]> (<["US" := ["10.0.0.1"; "10.0.0.2"]]> ∅).

Definition exampleGlobals : Globals := mkGlobals exampleTable "US".

(** A table whose default country has one target. *)
Definition singleMapping : list string := ["US:10.0.0.1"].
Definition singleGlobals : Globals :=
  mkGlobals (<["US" := ["10.0.0.1"]]> ∅) "US".

(** A table whose default country has three targets. *)
Definition tripleMapping : list string :=
  ["US:10.0.0.1"; "US:10.0.0.2"; "US:10.0.0.3"].
Definition tripleGlobals : Globals :=
  mkGlobals (<["US" := ["10.0.0.1"; "10.0.0.2"; "10.0.0.3"]]> ∅) "US".

Definition mx1 : MX := mkMX "mx1.example.com." 10.
Definition mx2 : MX := mkMX "mx2.example.com." 20.
Definition ip1 : IP := [192; 0; 2; 1].
Definition ip2 : IP := [192; 0; 2; 2].

Definition eqIP (a b : IP) : bool := bool_decide (a = b).

(** A network where [example.com] has the MX hosts [mxs], and each of the
    two hosts has one address; [db] is the database reader. *)
Definition stubNet (mxs : list MX) (db : IP -> GoResult GeoRecord) : Collaborators :=
  mkCollaborators
    (fun domain =>
       if String.eqb domain "example.com" then Ok mxs
       else Err "no such host")
    (fun host =>
       if String.eqb host (Host mx1) then Ok [ip1]
       else if String.eqb host (Host mx2) then Ok [ip2]
       else Err "no such host")
    (Ok db).

(** The first address is in Germany; the second is not in the database
    file at all. *)
Definition dbFirstDE (ip : IP) : GoResult GeoRecord :=
  if eqIP ip ip1 then Ok (mkGeoRecord "DE") else Err "lookup failed".

(** The lookup of the first address fails, the second is in Germany. *)
Definition dbFirstFails (ip : IP) : GoResult GeoRecord :=
  if eqIP ip ip1 then Err "lookup failed"
  else if eqIP ip ip2 then Ok (mkGeoRecord "DE")
  else Err "lookup failed".

(** The database has no country for the first address and answers with a
    record whose code is empty; the second is in Germany. *)
Definition dbFirstNoCountry (ip : IP) : GoResult GeoRecord :=
  if eqIP ip ip1 then Ok (mkGeoRecord EmptyString)
  else if eqIP ip ip2 then Ok (mkGeoRecord "DE")
  else Err "lookup failed".

Definition world0 : World := mkWorld 0 [].

(** A random source that always hands out the same number. *)
Definition always (n : nat) : nat -> nat := fun _ => n.

(** ** Vocabulary of the further properties *)

(** The target of a directive, as the loop reads it. *)
Definition targetOf (value : string) : string :=
  nth 1 (strings.Split value colon) EmptyString.

(** The targets of the directives whose country is [k], in the order of
    the directives. *)
Fixpoint targetsFor (unicodeUpper : string -> string) (k : string)
  (mapping : list string) : list string :=
  match mapping with
  | [] => []
  | value :: more =>
      if String.eqb (countryOf unicodeUpper value) k
      then targetOf value :: targetsFor unicodeUpper k more
      else targetsFor unicodeUpper k more
  end.

(** [t] is a target of some country of the table. *)
Definition configured (dm : gmap string (list string)) (t : string) : Prop :=
  exists k l, dm !! k = Some l /\ t ∈ l.

(** The lookup of the host's addresses fails or gives none. *)
Definition noAddress (net : Collaborators) (mx : MX) : bool :=
  match LookupIP net (Host mx) with
  | Ok [] => true
  | Ok (_ :: _) => false
  | Err _ => true
  end.

(** The address lookups of the hosts [mxs], one after the other. *)
Definition lookupEvents (net : Collaborators) (mxs : list MX) : list Event :=
  map (fun mx => CallLookupIP (Host mx) (LookupIP net (Host mx))) mxs.

(** Two MX hosts the stub network has no address for. *)
Definition unknownHost1 : MX := mkMX "gone1.example.com." 5.
Definition unknownHost2 : MX := mkMX "gone2.example.com." 7.

(** The stub network with a database file that cannot be opened. *)
Definition stubNetNoDatabase (mxs : list MX) : Collaborators :=
  mkCollaborators
    (LookupMX (stubNet mxs dbFirstDE))
    (LookupIP (stubNet mxs dbFirstDE))
    (Err "open GeoLite2-Country.mmdb: no such file or directory").

(** The run did not return: it panicked or left the process. *)
Definition aborted {A} (r : Run A) : bool :=
  match r with
  | Done _ _ => false
  | Panicked _ _ => true
  | Exited _ _ => true
  end.

(** A directive of the form [c:t] that the loop takes: one [':'], an
    upper-cased country of two bytes, a target that is not empty. *)
Definition takenDirective (unicodeUpper : string -> string) (value : string)
  : Prop :=
  exists c t,
    value = c +:+ String colon t
    /\ strings.Count c colon = 0 /\ strings.Count t colon = 0
    /\ t <> EmptyString
    /\ String.length (strings.ToUpper unicodeUpper c) = 2.

(** The letter U+0131 (dotless i), two bytes in UTF-8. *)
Definition dotlessI : string :=
  String (ascii_of_nat 196) (String (ascii_of_nat 177) EmptyString).

(** The Unicode branch of [ToUpper] at that letter: [unicode.ToUpper] maps
    U+0131 to U+0049, so [strings.ToUpper] of it is ["I"], one byte. No
    other string of the examples holds a byte outside ASCII. *)
Definition upperDotlessI (s : string) : string :=
  if String.eqb s dotlessI then "I" else s.

(** An MX host with two addresses, behind a host without any, in a network
    whose database file cannot be opened. *)
Definition twoAddressHost : MX := mkMX "mx3.example.com." 30.

Definition stubNetTwoAddresses : Collaborators :=
  mkCollaborators
    (fun domain =>
       if String.eqb domain "example.com" then Ok [unknownHost1; twoAddressHost]
       else Err "no such host")
    (fun host =>
       if String.eqb host (Host twoAddressHost) then Ok [ip1; ip2]
       else Err "no such host")
    (Err "open GeoLite2-Country.mmdb: no such file or directory").

End GeoIpTransportMap.

Import GeoIpTransportMap.

(** * Properties *)

(** ** [strings.Split] and [strings.ToUpper] *)

Lemma Split_length (s : string) (sep : ascii) :
  length (strings.Split s sep) = S (strings.Count s sep).
Proof.
  induction s as [|c s IH]; simpl; [reflexivity|].
  destruct (Ascii.eqb c sep); simpl.
  - now rewrite IH.
  - destruct (strings.Split s sep) as [|piece pieces]; simpl in *; lia.
Qed.

Lemma Split_two_iff (s : string) (sep : ascii) :
  length (strings.Split s sep) = 2 <-> strings.Count s sep = 1.
Proof. rewrite Split_length. lia. Qed.

Lemma Split_no_sep (s : string) (sep : ascii) :
  strings.Count s sep = 0 -> strings.Split s sep = [s].
Proof.
  induction s as [|c s IH]; simpl; [reflexivity|].
  destruct (Ascii.eqb c sep); simpl; [discriminate|].
  intros H. now rewrite (IH H).
Qed.

Lemma Split_join (c t : string) (sep : ascii) :
  strings.Count c sep = 0 ->
  strings.Split (c +:+ String sep t) sep = c :: strings.Split t sep.
Proof.
  induction c as [|a c IH]; simpl.
  - intros _. now rewrite Ascii.eqb_refl.
  - destruct (Ascii.eqb a sep); simpl; [discriminate|].
    intros H. now rewrite (IH H).
Qed.

Lemma Split_directive (c t : string) (sep : ascii) :
  strings.Count c sep = 0 -> strings.Count t sep = 0 ->
  strings.Split (c +:+ String sep t) sep = [c; t].
Proof.
  intros Hc Ht. rewrite (Split_join _ _ _ Hc). now rewrite (Split_no_sep _ _ Ht).
Qed.

Lemma mapBytes_length (f : ascii -> ascii) (s : string) :
  String.length (strings.mapBytes f s) = String.length s.
Proof. induction s; simpl; congruence. Qed.

Lemma ToUpper_ascii_length (uu : string -> string) (s : string) :
  strings.isASCII s = true ->
  String.length (strings.ToUpper uu s) = String.length s.
Proof.
  intros H. unfold strings.ToUpper. rewrite H. apply mapBytes_length.
Qed.

(** ** The destination table built at startup *)

Section StartupFacts.
Variable unicodeUpper : string -> string.

Local Abbreviation ToUpper := (strings.ToUpper unicodeUpper).
Local Abbreviation addMapping := (addMapping unicodeUpper).
Local Abbreviation addMappings := (addMappings unicodeUpper).
Local Abbreviation countryOf := (countryOf unicodeUpper).

(** A directive is taken exactly when it has one [':'], an upper-cased
    country of two bytes and a target that is not empty. *)
Lemma addMapping_inr (value : string) (dm dm' : gmap string (list string)) :
  addMapping value dm = inr dm' <->
  exists c t,
    strings.Split value colon = [c; t] /\ String.length (ToUpper c) = 2 /\
    t <> EmptyString /\ dm' = <[ToUpper c := mapIndex dm (ToUpper c) ++ [t]]> dm.
Proof.
  unfold GeoIpTransportMap.addMapping.
  destruct (strings.Split value colon) as [|c [|t [|x rest]]] eqn:Hs; simpl;
    try (split; [discriminate | intros (c' & t' & Heq & _); discriminate]).
  destruct (Nat.eqb_spec (String.length (ToUpper c)) 2) as [Hc|Hc]; simpl.
  - destruct t as [|a t]; simpl.
    + split; [discriminate|]. intros (c' & t' & Heq & _ & Hne & _).
      inversion Heq; subst. now destruct Hne.
    + split.
      * intros H. inversion H; subst. exists c, (String a t). repeat split; auto; discriminate.
      * intros (c' & t' & Heq & _ & _ & ->). inversion Heq; subst. reflexivity.
  - split; [discriminate|]. intros (c' & t' & Heq & Hlen & _).
    inversion Heq; subst. contradiction.
Qed.

Lemma validTable_empty : validTable ∅.
Proof. intros k l H. rewrite lookup_empty in H. discriminate. Qed.

Lemma addMapping_valid (value : string) (dm dm' : gmap string (list string)) :
  validTable dm -> addMapping value dm = inr dm' -> validTable dm'.
Proof.
  intros Hv H. apply addMapping_inr in H as (c & t & _ & Hlen & _ & ->).
  intros k l. destruct (decide (ToUpper c = k)) as [<-|Hne].
  - rewrite lookup_insert_eq. intros [= <-]. split; [exact Hlen|].
    intros Happ. apply app_eq_nil in Happ as [_ Hnil]. discriminate.
  - rewrite lookup_insert_ne by exact Hne. apply Hv.
Qed.

Lemma addMappings_valid (mapping : list string) (dm dm' : gmap string (list string)) :
  validTable dm -> addMappings mapping dm = (dm', None) -> validTable dm'.
Proof.
  revert dm. induction mapping as [|value more IH]; simpl; intros dm Hv H.
  - now inversion H; subst.
  - destruct (addMapping value dm) as [e|dm1] eqn:H1; [discriminate|].
    eapply IH; [|exact H]. eapply addMapping_valid; eauto.
Qed.

(** Where the keys of the table come from. *)
Lemma addMapping_keys (value : string) (dm dm' : gmap string (list string)) (k : string) :
  addMapping value dm = inr dm' ->
  is_Some (dm' !! k) <-> is_Some (dm !! k) \/ k = countryOf value.
Proof.
  intros H. apply addMapping_inr in H as (c & t & Hs & _ & _ & ->).
  unfold countryOf. rewrite Hs. simpl.
  destruct (decide (ToUpper c = k)) as [<-|Hne].
  - rewrite lookup_insert_eq. split; [now right | now eexists].
  - rewrite lookup_insert_ne by exact Hne. split; [now left|].
    intros [H|H]; [exact H | congruence].
Qed.

Lemma addMappings_keys (mapping : list string) (dm dm' : gmap string (list string)) (k : string) :
  addMappings mapping dm = (dm', None) ->
  is_Some (dm' !! k) <->
  is_Some (dm !! k) \/ exists value, value ∈ mapping /\ k = countryOf value.
Proof.
  revert dm. induction mapping as [|value more IH]; simpl; intros dm H.
  - inversion H; subst. split; [now left|].
    intros [H1|(v & Hin & _)]; [exact H1|]. now apply elem_of_nil in Hin.
  - destruct (addMapping value dm) as [e|dm1] eqn:H1; [discriminate|].
    rewrite (IH _ H), (addMapping_keys _ _ _ k H1). split.
    + intros [[Hk|Hk]|(v & Hin & Hk)].
      * now left.
      * right. exists value. split; [apply elem_of_cons; now left | exact Hk].
      * right. exists v. split; [apply elem_of_cons; now right | exact Hk].
    + intros [Hk|(v & Hin & Hk)]; [now left; left|].
      apply elem_of_cons in Hin as [Hv|Hin].
      * subst v. now left; right.
      * right. now exists v.
Qed.

End StartupFacts.

Lemma Count_join (c t : string) (sep : ascii) :
  strings.Count (c +:+ String sep t) sep
  = strings.Count c sep + S (strings.Count t sep).
Proof.
  induction c as [|a c IH]; simpl.
  - now rewrite Ascii.eqb_refl.
  - rewrite IH. lia.
Qed.

Section StartupClaims.
Variable unicodeUpper : string -> string.

Local Abbreviation ToUpper := (strings.ToUpper unicodeUpper).
Local Abbreviation addMapping := (addMapping unicodeUpper).
Local Abbreviation addMappings := (addMappings unicodeUpper).
Local Abbreviation countryOf := (countryOf unicodeUpper).
Local Abbreviation argsHandler := (argsHandler unicodeUpper).
Local Abbreviation mainStart := (mainStart unicodeUpper).




(** One turn of the loop on a directive [c:t] whose target is not empty:
    it is taken exactly when [ToUpper c] has two bytes, whatever these
    bytes are, and [ToUpper c] is then a key with [t] appended to its
    targets. Every key of a table the loop builds from the empty one is
    such an upper-cased token of two bytes. *)
Lemma country_token_two_bytes
  (c t : string) (dm : gmap string (list string)) :
  strings.Count c colon = 0 -> strings.Count t colon = 0 -> t <> EmptyString ->
  (String.length (ToUpper c) = 2 <->
   addMapping (c +:+ String colon t) dm
   = inr (<[ToUpper c := mapIndex dm (ToUpper c) ++ [t]]> dm))
  /\ (String.length (ToUpper c) = 2 ->
      (<[ToUpper c := mapIndex dm (ToUpper c) ++ [t]]> dm) !! ToUpper c
      = Some (mapIndex dm (ToUpper c) ++ [t]))
  /\ (strings.isASCII c = true -> String.length c = 2 ->
      String.length (ToUpper c) = 2)
  /\ (forall mapping dm' k,
        addMappings mapping ∅ = (dm', None) -> is_Some (dm' !! k) ->
        String.length k = 2
        /\ exists value, value ∈ mapping /\ k = countryOf value).
Proof.
  intros Hc Ht Hne. split; [|split; [|split]].
  - split.
    + intros Hlen. apply addMapping_inr. exists c, t.
      rewrite Split_directive by assumption. auto.
    + intros H. apply addMapping_inr in H as (c' & t' & Hs & Hlen & _).
      rewrite Split_directive in Hs by assumption. now inversion Hs; subst.
  - intros _. apply lookup_insert_eq.
  - intros Hascii Hlen. now rewrite ToUpper_ascii_length.
  - intros mapping dm' k Hm [l Hk]. split.
    + exact (proj1 (addMappings_valid unicodeUpper _ _ _ validTable_empty Hm k l Hk)).
    + assert (Hs : is_Some (dm' !! k)) by now exists l.
      apply (addMappings_keys unicodeUpper _ _ _ _ Hm) in Hs as [Hs|Hs]; [|exact Hs].
      rewrite lookup_empty in Hs. now destruct Hs.
Qed.

Lemma argsHandler_accepts (c : Context) (g : Globals) (dm : gmap string (list string)) :
  flagHelp c = false -> flagTarget c <> [] ->
  addMappings (flagTarget c) (destinationMap g) = (dm, None) ->
  argsHandler c g =
  match dm !! ToUpper (defaultTarget g) with
  | None => Returned (Some (DefaultNotInMap (ToUpper (defaultTarget g))))
              (mkGlobals dm (ToUpper (defaultTarget g)))
  | Some _ => Returned None (mkGlobals dm (ToUpper (defaultTarget g)))
  end.
Proof.
  intros Hh Hne Hm. unfold GeoIpTransportMap.argsHandler. rewrite Hh, Hm.
  destruct (flagTarget c); [contradiction | reflexivity].
Qed.

(** Whatever the directives, a nil error means the default is a key. *)
Lemma argsHandler_nil_error (c : Context) (g g' : Globals) :
  argsHandler c g = Returned None g' ->
  exists dm,
    addMappings (flagTarget c) (destinationMap g) = (dm, None) /\
    g' = mkGlobals dm (ToUpper (defaultTarget g)) /\
    is_Some (dm !! ToUpper (defaultTarget g)).
Proof.
  unfold GeoIpTransportMap.argsHandler. destruct (flagHelp c); [discriminate|].
  destruct (Nat.ltb _ _); [discriminate|].
  destruct (addMappings _ _) as [dm [e|]]; [discriminate|].
  destruct (dm !! ToUpper (defaultTarget g)) as [l|] eqn:Hl; [|discriminate].
  intros [= <-]. exists dm. repeat split. now exists l.
Qed.

(** A configuration the validation accepts: the table is valid and the
    default, upper-cased, is one of its keys, so it has two bytes and a
    target list that is not empty. *)
Lemma argsHandler_valid (c : Context) (dflt : string) (g : Globals) :
  argsHandler c (initGlobals dflt) = Returned None g ->
  validTable (destinationMap g)
  /\ String.length (defaultTarget g) = 2
  /\ exists l, destinationMap g !! defaultTarget g = Some l /\ l <> [].
Proof.
  intros H. apply argsHandler_nil_error in H as (dm & Hm & -> & [l Hl]).
  simpl in *.
  assert (Hv : validTable dm)
    by exact (addMappings_valid unicodeUpper _ _ _ validTable_empty Hm).
  destruct (Hv _ _ Hl) as [Hlen Hne].
  split; [exact Hv | split; [exact Hlen | exists l; split; assumption]].
Qed.

(** When help is not asked for and the loop takes every directive of a
    mapping that is not empty, [argsHandler] returns an error, and [main]
    leaves the process before [net.Listen], exactly when the upper-cased
    default is not a key of the table; and a default country that is the
    country of no directive is refused before [net.Listen] whatever else
    the configuration holds. *)
Lemma default_key_decides (c : Context) (dflt : string) :
  (forall dm, flagHelp c = false -> flagTarget c <> [] ->
     addMappings (flagTarget c) ∅ = (dm, None) ->
     ((exists e g, argsHandler c (initGlobals dflt) = Returned (Some e) g)
        <-> dm !! ToUpper dflt = None)
     /\ (mainStart c dflt = ProcessExit 1 <-> dm !! ToUpper dflt = None))
  /\ ((forall value, value ∈ flagTarget c -> countryOf value <> ToUpper dflt) ->
      mainStart c dflt = ProcessExit 1).
Proof.
  split.
  - intros dm Hh Hne Hm. unfold GeoIpTransportMap.mainStart.
    rewrite (argsHandler_accepts c (initGlobals dflt) dm Hh Hne Hm). simpl.
    destruct (dm !! ToUpper dflt) as [l|]; split; split;
      try discriminate; try reflexivity.
    + intros (e & g & H). discriminate.
    + intros _. eauto.
  - intros Hno. unfold GeoIpTransportMap.mainStart.
    destruct (argsHandler c (initGlobals dflt)) as [|[e|] g] eqn:Ha;
      try reflexivity.
    apply argsHandler_nil_error in Ha as (dm & Hm & _ & Hk). simpl in *.
    apply (addMappings_keys unicodeUpper _ _ _ _ Hm) in Hk as [Hk|(v & Hin & Hv)].
    + rewrite lookup_empty in Hk. now destruct Hk.
    + now destruct (Hno v Hin).
Qed.

End StartupClaims.



(** C8: validation fails although the upper-cased default is a key of the
    table as accumulated: the second directive is malformed. *)
Lemma C8_fails_with_default_mapped :
  argsHandler asciiOnly (mkContext false ["US:10.0.0.1"; "bogus"]) (initGlobals "us")
  = Returned (Some (InvalidMappingFormat "bogus"))
      (mkGlobals (<["US" := ["10.0.0.1"]]> ∅) "us")
  /\ (<["US" := ["10.0.0.1"]]> ∅ : gmap string (list string))
       !! strings.ToUpper asciiOnly "us" = Some ["10.0.0.1"]
  /\ mainStart asciiOnly (mkContext false ["US:10.0.0.1"; "bogus"]) "us"
     = ProcessExit 1.
Proof. vm_compute. repeat split; reflexivity. Qed.

(** ** The resolver *)

Lemma countryAnswers_app (a b : list Event) :
  countryAnswers (a ++ b) = countryAnswers a + countryAnswers b.
Proof. induction a as [|e a IH]; simpl; [reflexivity | rewrite IH; lia]. Qed.

Lemma addCalls_addCalls (w : World) (a b : list Event) :
  addCalls (addCalls w a) b = addCalls w (a ++ b).
Proof. unfold addCalls. simpl. now rewrite app_assoc. Qed.

Lemma emit_then {A} (e : Event) (k : M A) (w : World) :
  (emit e ;;; k) w = k (addCalls w [e]).
Proof. reflexivity. Qed.

Section ResolverFacts.
Variable net : Collaborators.
Variable rnd : nat -> nat.

Local Abbreviation Intn := (Intn rnd).
Local Abbreviation getIp := (getIp net rnd).
Local Abbreviation getCountryByIp := (getCountryByIp net).
Local Abbreviation pickDefault := (pickDefault rnd).
Local Abbreviation rangeMxs := (rangeMxs net rnd).
Local Abbreviation getResult := (getResult net rnd).

(** Drawing an index below the length of a slice and reading there. *)
Lemma pick_in_range {A} (value : list A) (w : World) :
  value <> [] ->
  exists x, x ∈ value /\
    (i <- Intn (length value) ;; sliceIndex value i) w
    = Done x (mkWorld (S (draws w)) (calls w)).
Proof.
  intros Hne. unfold bind, GeoIpTransportMap.Intn.
  destruct (Nat.eqb_spec (length value) 0) as [H0|H0].
  - destruct value; [contradiction | discriminate].
  - assert (Hlt : rnd (draws w) mod length value < length value)
      by (apply Nat.mod_upper_bound; exact H0).
    apply lookup_lt_is_Some_2 in Hlt as [x Hx].
    exists x. split; [eapply list_elem_of_lookup_2; eauto|].
    unfold sliceIndex. now rewrite Hx.
Qed.

Lemma pick_then {A B} (value : list A) (f : A -> B) (w w2 : World) (x : A) :
  (i <- Intn (length value) ;; sliceIndex value i) w = Done x w2 ->
  (i <- Intn (length value) ;; y <- sliceIndex value i ;; ret (f y)) w
  = Done (f x) w2.
Proof.
  unfold bind. destruct (GeoIpTransportMap.Intn rnd _ w) as [i wi|msg wi|msg wi];
    try discriminate.
  destruct (sliceIndex value i wi) as [y wy|msg wy|msg wy]; try discriminate.
  now intros [= -> ->].
Qed.

(** [getIp] never panics: it answers with an address of the host, or with
    an error when the lookup failed or gave no address. *)
Lemma getIp_cases (mx : MX) (w : World) :
  let w1 := addCalls w [CallLookupIP (Host mx) (LookupIP net (Host mx))] in
  (exists e, getIp mx w = Done (Err e) w1 /\
     (LookupIP net (Host mx) = Ok [] \/ exists m, LookupIP net (Host mx) = Err m))
  \/ (exists ip ips n, LookupIP net (Host mx) = Ok ips /\ ip ∈ ips /\
        getIp mx w = Done (Ok ip) (mkWorld n (calls w1))).
Proof.
  unfold GeoIpTransportMap.getIp. cbv zeta. rewrite emit_then.
  destruct (LookupIP net (Host mx)) as [ips|m] eqn:Hl.
  - destruct ips as [|ip [|ip' ips]].
    + left. eexists. split; [reflexivity | now left].
    + right. exists ip, [ip], (draws w). repeat split. apply elem_of_cons. now left.
    + right. set (l := ip :: ip' :: ips).
      destruct (pick_in_range l (addCalls w [CallLookupIP (Host mx) (Ok l)]))
        as (x & Hx & Hrun); [discriminate|].
      exists x, l, (S (draws w)). repeat split; [exact Hx|].
      change (length l =? 1)%nat with false. change (1 <? length l)%nat with true.
      cbv iota. now apply pick_then.
  - left. eexists. split; [reflexivity | right; now exists m].
Qed.

Lemma getIp_one_address (mx : MX) (ip : IP) (w : World) :
  LookupIP net (Host mx) = Ok [ip] ->
  getIp mx w = Done (Ok ip) (addCalls w [CallLookupIP (Host mx) (Ok [ip])]).
Proof.
  intros H. unfold GeoIpTransportMap.getIp, bind, emit. rewrite H. reflexivity.
Qed.

(** The three ways [getCountryByIp] ends. *)
Lemma getCountryByIp_open_fails (ip : IP) (w : World) (msg : string) :
  geoOpen net = Err msg ->
  getCountryByIp ip w
  = Exited ("Open GeoIP DB file error: " +:+ msg) (addCalls w [CallGeoOpen false]).
Proof. intros H. unfold GeoIpTransportMap.getCountryByIp. rewrite H. reflexivity. Qed.

Lemma getCountryByIp_error (ip : IP) (w : World) db (e : string) :
  geoOpen net = Ok db -> db ip = Err e ->
  getCountryByIp ip w
  = Done (Err e) (addCalls w [CallGeoOpen true; CallGeoCountry ip (Err e)]).
Proof.
  intros H He. unfold GeoIpTransportMap.getCountryByIp, bind, emit, addCalls.
  rewrite H. simpl. rewrite He. simpl. now rewrite <- app_assoc.
Qed.

Lemma getCountryByIp_record (ip : IP) (w : World) db (r : GeoRecord) :
  geoOpen net = Ok db -> db ip = Ok r ->
  getCountryByIp ip w
  = Done (Ok (IsoCode r)) (addCalls w [CallGeoOpen true; CallGeoCountry ip (Ok r)]).
Proof.
  intros H Hr. unfold GeoIpTransportMap.getCountryByIp, bind, emit, addCalls.
  rewrite H. simpl. rewrite Hr. simpl. now rewrite <- app_assoc.
Qed.

(** One iteration of the loop over the MX hosts. *)
Lemma rangeMxs_ip_error (g : Globals) (mx : MX) (later : list MX)
  (destination e : string) (w w1 : World) :
  getIp mx w = Done (Err e) w1 ->
  rangeMxs g (mx :: later) destination w = rangeMxs g later destination w1.
Proof. intros H. simpl. unfold bind. now rewrite H. Qed.

Lemma rangeMxs_country_error (g : Globals) (mx : MX) (later : list MX)
  (destination e : string) (ip : IP) (w w1 w2 : World) :
  getIp mx w = Done (Ok ip) w1 ->
  getCountryByIp ip w1 = Done (Err e) w2 ->
  rangeMxs g (mx :: later) destination w = rangeMxs g later destination w2.
Proof. intros H1 H2. simpl. unfold bind. now rewrite H1, H2. Qed.

Lemma rangeMxs_country_answer (g : Globals) (mx : MX) (later : list MX)
  (destination country : string) (ip : IP) (w w1 w2 : World) :
  getIp mx w = Done (Ok ip) w1 ->
  getCountryByIp ip w1 = Done (Ok country) w2 ->
  rangeMxs g (mx :: later) destination w
  = match destinationMap g !! country with
    | Some value => (i <- Intn (length value) ;; sliceIndex value i) w2
    | None => Done destination w2
    end.
Proof.
  intros H1 H2. simpl. unfold bind at 1. rewrite H1.
  unfold bind at 1. rewrite H2. now destruct (destinationMap g !! country).
Qed.

Lemma rangeMxs_exit (g : Globals) (mx : MX) (later : list MX)
  (destination msg : string) (ip : IP) (w w1 w2 : World) :
  getIp mx w = Done (Ok ip) w1 ->
  getCountryByIp ip w1 = Exited msg w2 ->
  rangeMxs g (mx :: later) destination w = Exited msg w2.
Proof. intros H1 H2. simpl. unfold bind. now rewrite H1, H2. Qed.

End ResolverFacts.

Section ResolverClaims.
Variable net : Collaborators.
Variable rnd : nat -> nat.

Local Abbreviation Intn := (Intn rnd).
Local Abbreviation getIp := (getIp net rnd).
Local Abbreviation getCountryByIp := (getCountryByIp net).
Local Abbreviation getMx := (getMx net).
Local Abbreviation pickDefault := (pickDefault rnd).
Local Abbreviation rangeMxs := (rangeMxs net rnd).
Local Abbreviation getResult := (getResult net rnd).

Lemma pick_calls {A} (value : list A) (w : World) :
  calls (worldOf ((i <- Intn (length value) ;; sliceIndex value i) w)) = calls w.
Proof.
  unfold bind, GeoIpTransportMap.Intn. destruct (length value =? 0)%nat; [reflexivity|].
  unfold sliceIndex. now destruct (value !! _).
Qed.

(** Whatever the MX list, the loop leaves at most one country lookup that
    came back without error. *)
Lemma rangeMxs_one_country_answer (g : Globals) (mxs : list MX)
  (destination : string) (w : World) :
  exists events,
    calls (worldOf (rangeMxs g mxs destination w)) = calls w ++ events
    /\ countryAnswers events <= 1.
Proof.
  revert w. induction mxs as [|mx later IH]; intros w.
  - exists []. simpl. rewrite app_nil_r. split; [reflexivity | lia].
  - destruct (getIp_cases net rnd mx w)
      as [(e & Hrun & _) | (ip & ips & n & Hl & Hin & Hrun)].
    + rewrite (rangeMxs_ip_error _ _ _ _ _ _ _ _ _ Hrun).
      destruct (IH (addCalls w [CallLookupIP (Host mx) (LookupIP net (Host mx))]))
        as (events & Hc & Hn).
      eexists. rewrite Hc. simpl. rewrite <- app_assoc. split; [reflexivity|].
      simpl. exact Hn.
    + destruct (geoOpen net) as [db|msg] eqn:Hopen.
      * destruct (db ip) as [r|e] eqn:Hdb.
        -- rewrite (rangeMxs_country_answer _ _ _ _ _ _ _ _ _ _ _ Hrun
                      (getCountryByIp_record _ _ _ _ _ Hopen Hdb)).
           exists [CallLookupIP (Host mx) (Ok ips);
                   CallGeoOpen true; CallGeoCountry ip (Ok r)].
           split; [|simpl; lia].
           destruct (destinationMap g !! IsoCode r) as [value|].
           ++ rewrite pick_calls. simpl. rewrite Hl. now rewrite <- app_assoc.
           ++ simpl. rewrite Hl. now rewrite <- app_assoc.
        -- rewrite (rangeMxs_country_error _ _ _ _ _ _ _ _ _ _ _ Hrun
                      (getCountryByIp_error _ _ _ _ _ Hopen Hdb)).
           match goal with |- context [rangeMxs g later destination ?w2] =>
             destruct (IH w2) as (events & Hc & Hn) end.
           eexists. rewrite Hc. simpl. rewrite Hl, <- !app_assoc.
           split; [reflexivity|]. simpl. exact Hn.
      * rewrite (rangeMxs_exit _ _ _ _ _ _ _ _ _ _ _ Hrun
                   (getCountryByIp_open_fails _ _ _ _ Hopen)).
        eexists. simpl. rewrite Hl, <- app_assoc. split; [reflexivity|].
        simpl. lia.
Qed.

(** C3 (amended). The loop ends at the first host whose address resolves
    and whose country lookup returns without error, whether or not the
    country is a key of the table: the hosts after it are never looked up.
    A host whose address does not resolve and a host whose country lookup
    returns an error are both passed over and the next host is tried. So
    at most one country lookup that returned without error is ever made. *)
Theorem C3_loop_ends_at_first_country_answer
  (g : Globals) (mx : MX) (later : list MX) (destination : string) (w : World) :
  (forall ip w1 country w2,
      getIp mx w = Done (Ok ip) w1 ->
      getCountryByIp ip w1 = Done (Ok country) w2 ->
      rangeMxs g (mx :: later) destination w = rangeMxs g [mx] destination w)
  /\ (forall ip w1 e w2,
        getIp mx w = Done (Ok ip) w1 ->
        getCountryByIp ip w1 = Done (Err e) w2 ->
        rangeMxs g (mx :: later) destination w = rangeMxs g later destination w2)
  /\ (forall e w1,
        getIp mx w = Done (Err e) w1 ->
        rangeMxs g (mx :: later) destination w = rangeMxs g later destination w1)
  /\ (exists events,
        calls (worldOf (rangeMxs g (mx :: later) destination w)) = calls w ++ events
        /\ countryAnswers events <= 1).
Proof.
  repeat split.
  - intros ip w1 country w2 H1 H2.
    now rewrite !(rangeMxs_country_answer _ _ _ _ _ _ _ _ _ _ _ H1 H2).
  - intros ip w1 e w2 H1 H2. exact (rangeMxs_country_error _ _ _ _ _ _ _ _ _ _ _ H1 H2).
  - intros e w1 H1. exact (rangeMxs_ip_error _ _ _ _ _ _ _ _ _ H1).
  - apply rangeMxs_one_country_answer.
Qed.

(** C5 (amended). For a host whose address resolves, a country lookup that
    returns an error passes the host over: the loop goes on with the hosts
    after it. A lookup that returns a record is no failure, also when the
    record holds no country (an empty code): the loop ends there and the
    fallback destination stays. *)
Theorem C5_country_error_passes_host_over
  (g : Globals) (mx : MX) (later : list MX) (destination : string)
  (ip : IP) (w w1 : World) (db : IP -> GoResult GeoRecord) :
  getIp mx w = Done (Ok ip) w1 ->
  geoOpen net = Ok db ->
  (forall e, db ip = Err e ->
     rangeMxs g (mx :: later) destination w
     = rangeMxs g later destination
         (addCalls w1 [CallGeoOpen true; CallGeoCountry ip (Err e)]))
  /\ (forall r, db ip = Ok r -> IsoCode r = EmptyString ->
        validTable (destinationMap g) ->
        rangeMxs g (mx :: later) destination w
        = Done destination
            (addCalls w1 [CallGeoOpen true; CallGeoCountry ip (Ok r)])).
Proof.
  intros Hip Hopen. split.
  - intros e He.
    exact (rangeMxs_country_error _ _ _ _ _ _ _ _ _ _ _ Hip
             (getCountryByIp_error _ _ _ _ _ Hopen He)).
  - intros r Hr Hiso Hvalid.
    rewrite (rangeMxs_country_answer _ _ _ _ _ _ _ _ _ _ _ Hip
               (getCountryByIp_record _ _ _ _ _ Hopen Hr)).
    rewrite Hiso. destruct (destinationMap g !! EmptyString) as [l|] eqn:Hl;
      [|reflexivity].
    apply Hvalid in Hl as [Hlen _]. discriminate.
Qed.

Lemma pickDefault_done (g : Globals) (w w' : World) (t : string) :
  pickDefault g w = Done t w' ->
  t ∈ mapIndex (destinationMap g) (defaultTarget g)
  /\ w' = mkWorld (S (draws w)) (calls w).
Proof.
  unfold GeoIpTransportMap.pickDefault, bind, GeoIpTransportMap.Intn.
  destruct (String.length (defaultTarget g) =? 0)%nat; [discriminate|].
  unfold sliceIndex.
  destruct (mapIndex _ _ !! _) as [x|] eqn:Hx; [|discriminate].
  intros [= <- <-]. split; [eapply list_elem_of_lookup_2; eauto | reflexivity].
Qed.

Lemma pickDefault_calls (g : Globals) (w : World) :
  calls (worldOf (pickDefault g w)) = calls w.
Proof.
  unfold GeoIpTransportMap.pickDefault, bind, GeoIpTransportMap.Intn.
  destruct (String.length (defaultTarget g) =? 0)%nat; [reflexivity|].
  unfold sliceIndex. now destruct (mapIndex _ _ !! _).
Qed.

(** Without exactly two parts around ['@'] the fallback is the result. *)
Lemma getResult_not_two_parts (g : Globals) (email : string) (w : World) :
  length (strings.Split email at_sign) <> 2 ->
  getResult g email w = pickDefault g w.
Proof.
  intros Hlen. unfold GeoIpTransportMap.getResult, getEmailDomain, bind.
  destruct (Nat.eqb_spec (length (strings.Split email at_sign)) 2) as [H|H];
    [contradiction|]. simpl.
  now destruct (pickDefault g w).
Qed.

(** For a line that does not split at ['@'] into exactly two parts (no
    ['@'], or more than one), [getResult] is the pick of the fallback and
    nothing more: no MX lookup or other call is made, and a destination it
    returns is a target of the default country. *)
Lemma getResult_fallback_only
  (g : Globals) (email : string) (w : World) :
  length (strings.Split email at_sign) <> 2 ->
  getResult g email w = pickDefault g w
  /\ calls (worldOf (getResult g email w)) = calls w
  /\ (forall t w', getResult g email w = Done t w' ->
        t ∈ mapIndex (destinationMap g) (defaultTarget g)).
Proof.
  intros Hlen. rewrite (getResult_not_two_parts _ _ _ Hlen).
  split; [reflexivity|]. split.
  - apply pickDefault_calls.
  - intros t w' H. now apply pickDefault_done in H.
Qed.

End ResolverClaims.

(** ** The connection handler *)

Lemma ReadBytes_line (s rest : string) (delim : ascii) :
  strings.Count s delim = 0 ->
  ReadBytes (s +:+ String delim rest) delim
  = (s +:+ String delim EmptyString, None, rest).
Proof.
  induction s as [|c s IH]; simpl.
  - intros _. now rewrite Ascii.eqb_refl.
  - destruct (Ascii.eqb c delim); simpl; [discriminate|].
    intros H. now rewrite (IH H).
Qed.

(** A nil error means the data is a line with its delimiter: it is not
    empty, the delimiter is its last byte and occurs nowhere before. *)
Lemma ReadBytes_nil_error (incoming data rest : string) (delim : ascii) :
  ReadBytes incoming delim = (data, None, rest) ->
  exists line,
    data = line +:+ String delim EmptyString
    /\ strings.Count line delim = 0
    /\ incoming = data +:+ rest.
Proof.
  revert data. induction incoming as [|c s IH]; simpl; intros data H.
  - discriminate.
  - destruct (Ascii.eqb_spec c delim) as [->|Hne].
    + inversion H; subst. exists EmptyString. repeat split.
    + destruct (ReadBytes s delim) as [[d e] r] eqn:Hr.
      inversion H; subst.
      destruct (IH d eq_refl) as (line & -> & Hc & ->).
      exists (String c line). simpl.
      destruct (Ascii.eqb_spec c delim) as [Heq|_]; [contradiction|].
      repeat split. exact Hc.
Qed.

(** An error means the bytes ended before a delimiter. *)
Lemma ReadBytes_error (incoming data rest e : string) (delim : ascii) :
  ReadBytes incoming delim = (data, Some e, rest) ->
  data = incoming /\ strings.Count incoming delim = 0.
Proof.
  revert data. induction incoming as [|c s IH]; simpl; intros data H.
  - inversion H. now split.
  - destruct (Ascii.eqb c delim); [discriminate|].
    destruct (ReadBytes s delim) as [[d e'] r] eqn:Hr.
    inversion H; subst. destruct (IH d eq_refl) as [-> Hc]. now split.
Qed.

Lemma length_append (a b : string) :
  String.length (a +:+ b) = String.length a + String.length b.
Proof.
  induction a as [|c a IH]; [reflexivity|].
  change (S (String.length (a +:+ b)) = S (String.length a + String.length b)).
  now rewrite IH.
Qed.

Lemma append_line (line rest : string) (c : ascii) :
  (line +:+ String c EmptyString) +:+ rest = line +:+ String c rest.
Proof.
  induction line as [|a line IH]; [reflexivity|].
  change (String a ((line +:+ String c EmptyString) +:+ rest)
          = String a (line +:+ String c rest)).
  now rewrite IH.
Qed.

Lemma substring_line (line : string) (c : ascii) :
  substring 0 (String.length line) (line +:+ String c EmptyString) = line.
Proof. induction line as [|a line IH]; simpl; [reflexivity | now rewrite IH]. Qed.

(** Cutting the last byte off a line never panics and gives the line
    without its delimiter. *)
Lemma sliceTo_line (line : string) (delim : ascii) (w : World) :
  let data := line +:+ String delim EmptyString in
  sliceTo data (Z.of_nat (String.length data) - 1) w = Done line w.
Proof.
  cbv zeta. unfold sliceTo. rewrite length_append.
  change (String.length (String delim EmptyString)) with 1.
  replace (Z.of_nat (String.length line + 1) - 1)%Z
    with (Z.of_nat (String.length line)) by lia.
  destruct (Z.ltb_spec (Z.of_nat (String.length line)) 0); [lia|].
  destruct (Z.ltb_spec (Z.of_nat (String.length line + 1))
              (Z.of_nat (String.length line))); [lia|].
  cbn [orb]. unfold ret. rewrite Nat2Z.id. now rewrite substring_line.
Qed.

Lemma written_app (a b : list Event) : written (a ++ b) = written a ++ written b.
Proof. unfold written. apply omap_app. Qed.

Section HandlerFacts.
Variable net : Collaborators.
Variable rnd : nat -> nat.

Local Abbreviation getResult := (getResult net rnd).
Local Abbreviation serve := (serve net rnd).
Local Abbreviation handleConnection := (handleConnection net rnd).

(** One turn of the loop on a complete line. *)
Lemma serve_line (fuel : nat) (g : Globals) (line rest : string) (w : World) :
  strings.Count line LF = 0 ->
  serve (S fuel) g (line +:+ String LF rest) w
  = (result <- getResult g line ;;
     emit (ConnWrite (genPostfixResponse result)) ;;;
     serve fuel g rest) w.
Proof.
  intros H. simpl. rewrite (ReadBytes_line _ _ _ H).
  unfold bind at 1. now rewrite sliceTo_line.
Qed.

(** When the bytes end, the connection is closed and the handler returns. *)
Lemma serve_end (fuel : nat) (g : Globals) (incoming : string) (w : World) :
  strings.Count incoming LF = 0 ->
  serve (S fuel) g incoming w = Done tt (addCalls w [ConnClose]).
Proof.
  intros H. simpl. destruct (ReadBytes incoming LF) as [[d [e|]] r] eqn:Hr.
  - reflexivity.
  - apply ReadBytes_nil_error in Hr as (line & -> & Hc & ->).
    rewrite append_line, Count_join in H. lia.
Qed.

(** More fuel than bytes is always enough: the loop never stops for want
    of fuel. *)
Lemma serve_fuel (fuel fuel' : nat) (g : Globals) (incoming : string) (w : World) :
  String.length incoming < fuel -> String.length incoming < fuel' ->
  serve fuel g incoming w = serve fuel' g incoming w.
Proof.
  revert fuel' incoming w.
  induction fuel as [|fuel IH]; intros fuel' incoming w H H'; [lia|].
  destruct fuel' as [|fuel']; [lia|].
  simpl. destruct (ReadBytes incoming LF) as [[d [e|]] r] eqn:Hr; [reflexivity|].
  apply ReadBytes_nil_error in Hr as (line & -> & Hc & ->).
  assert (Hlen : String.length r < String.length
                   ((line +:+ String LF EmptyString) +:+ r)).
  { rewrite !length_append. simpl. lia. }
  unfold bind. destruct (sliceTo _ _ w) as [s ws|m ws|m ws]; try reflexivity.
  destruct (getResult g s ws) as [t wt|m wt|m wt]; try reflexivity.
  simpl. apply IH; lia.
Qed.

End HandlerFacts.

(** ** The fallback pick *)

Lemma getResult_single_default_panics
  (net : Collaborators) (email : string) (w : World) :
  getResult net (always 1) singleGlobals email w
  = Panicked "index out of range" (mkWorld (S (draws w)) (calls w)).
Proof.
  unfold getResult, bind.
  now replace (pickDefault (always 1) singleGlobals w)
    with (@Panicked string "index out of range" (mkWorld (S (draws w)) (calls w)))
    by reflexivity.
Qed.

(** C1. A table the startup validation accepts, with one target for the
    default country: the fallback is read at index [rand.Intn(2)], two
    being the length of the country code, and the draw [1] is out of range.
    [getResult] panics whatever the line. *)
Theorem C1_single_default_target_panics
  (net : Collaborators) (email : string) (w : World) :
  argsHandler asciiOnly (mkContext false singleMapping) (initGlobals "US")
  = Returned None singleGlobals
  /\ getResult net (always 1) singleGlobals email w
     = Panicked "index out of range" (mkWorld (S (draws w)) (calls w)).
Proof.
  split; [vm_compute; reflexivity | apply getResult_single_default_panics].
Qed.

Lemma pickDefault_two_bytes (rnd : nat -> nat) (g : Globals) (w : World) :
  String.length (defaultTarget g) = 2 ->
  pickDefault rnd g w
  = sliceIndex (mapIndex (destinationMap g) (defaultTarget g))
      (rnd (draws w) mod 2) (mkWorld (S (draws w)) (calls w)).
Proof.
  intros H. unfold pickDefault, bind, Intn. now rewrite H.
Qed.

(** C2. A table the startup validation accepts, with three targets for the
    default country: whatever the random source hands out, the fallback is
    the first or the second target, never the third. *)
Theorem C2_third_default_target_never_picked
  (net : Collaborators) (rnd : nat -> nat) (w : World) :
  argsHandler asciiOnly (mkContext false tripleMapping) (initGlobals "US")
  = Returned None tripleGlobals
  /\ (pickDefault rnd tripleGlobals w
      = Done "10.0.0.1" (mkWorld (S (draws w)) (calls w))
      \/ pickDefault rnd tripleGlobals w
         = Done "10.0.0.2" (mkWorld (S (draws w)) (calls w)))
  /\ (getResult net rnd tripleGlobals "postmaster" w
      = Done "10.0.0.1" (mkWorld (S (draws w)) (calls w))
      \/ getResult net rnd tripleGlobals "postmaster" w
         = Done "10.0.0.2" (mkWorld (S (draws w)) (calls w))).
Proof.
  split; [vm_compute; reflexivity|].
  assert (Hpick : pickDefault rnd tripleGlobals w
      = Done "10.0.0.1" (mkWorld (S (draws w)) (calls w))
      \/ pickDefault rnd tripleGlobals w
         = Done "10.0.0.2" (mkWorld (S (draws w)) (calls w))).
  { rewrite pickDefault_two_bytes by reflexivity.
    assert (Hlt : rnd (draws w) mod 2 < 2) by (apply Nat.mod_upper_bound; lia).
    destruct (rnd (draws w) mod 2) as [|[|n]]; [now left | now right | lia]. }
  split; [exact Hpick|].
  rewrite getResult_not_two_parts by (vm_compute; lia). exact Hpick.
Qed.

(** ** The end-to-end scenario *)

(** With the example table the fallback pick never fails: the default
    country has as many targets as its code has bytes. *)
Lemma pickDefault_example (rnd : nat -> nat) (w : World) :
  exists t, (t = "10.0.0.1" \/ t = "10.0.0.2")
    /\ pickDefault rnd exampleGlobals w = Done t (mkWorld (S (draws w)) (calls w)).
Proof.
  rewrite pickDefault_two_bytes by reflexivity.
  assert (Hlt : rnd (draws w) mod 2 < 2) by (apply Nat.mod_upper_bound; lia).
  destruct (rnd (draws w) mod 2) as [|[|n]]; [| |lia].
  - exists "10.0.0.1". split; [now left | reflexivity].
  - exists "10.0.0.2". split; [now right | reflexivity].
Qed.

(** [getResult] on a line with one ['@'], once the fallback is picked and
    the MX lookup has answered. *)
Lemma getResult_resolved (net : Collaborators) (rnd : nat -> nat) (g : Globals)
  (user domain t : string) (mxs : list MX) (w w1 : World) :
  strings.Count user at_sign = 0 -> strings.Count domain at_sign = 0 ->
  pickDefault rnd g w = Done t w1 ->
  LookupMX net domain = Ok mxs ->
  getResult net rnd g (user +:+ String at_sign domain) w
  = rangeMxs net rnd g mxs t (addCalls w1 [CallLookupMX domain (Ok mxs)]).
Proof.
  intros Hu Hd Hpick Hmx. unfold getResult, getEmailDomain.
  rewrite (Split_directive _ _ _ Hu Hd). unfold bind at 1. rewrite Hpick.
  simpl. unfold getMx. rewrite Hmx. reflexivity.
Qed.

(** The scenario with a database file that opens. The table is the one
    built from ["US:10.0.0.1"], ["US:10.0.0.2"], ["DE:10.0.0.3"] with
    default [US]; [example.com] has one MX host with one address. When the
    database puts the address in [DE], the line [user@example.com] is
    answered with ["200 relay:[10.0.0.3]\n"] and nothing else is written;
    when [db.Country] returns an error, the answer is
    ["200 relay:[10.0.0.1]\n"] or ["200 relay:[10.0.0.2]\n"]. *)
Lemma scenario_with_open_database
  (uu : string -> string) (net : Collaborators) (rnd : nat -> nat)
  (mx : MX) (ip : IP) (db : IP -> GoResult GeoRecord) (w : World) :
  LookupMX net "example.com" = Ok [mx] ->
  LookupIP net (Host mx) = Ok [ip] ->
  geoOpen net = Ok db ->
  argsHandler uu (mkContext false exampleMapping) (initGlobals "US")
  = Returned None exampleGlobals
  /\ (forall r, db ip = Ok r -> IsoCode r = "DE" ->
        exists w',
          handleConnection net rnd exampleGlobals (wireLine "user@example.com") w
          = Done tt w'
          /\ written (calls w')
             = written (calls w) ++ [wireLine "200 relay:[10.0.0.3]"])
  /\ (forall e, db ip = Err e ->
        exists w',
          handleConnection net rnd exampleGlobals (wireLine "user@example.com") w
          = Done tt w'
          /\ (written (calls w')
              = written (calls w) ++ [wireLine "200 relay:[10.0.0.1]"]
              \/ written (calls w')
                 = written (calls w) ++ [wireLine "200 relay:[10.0.0.2]"])).
Proof.
  intros Hmx Hip Hopen. split; [vm_compute; reflexivity|].
  destruct (pickDefault_example rnd w) as (t & Ht & Hpick).
  assert (Hres : getResult net rnd exampleGlobals "user@example.com" w
    = rangeMxs net rnd exampleGlobals [mx] t
        (addCalls (mkWorld (S (draws w)) (calls w))
           [CallLookupMX "example.com" (Ok [mx])])).
  { apply (getResult_resolved net rnd exampleGlobals "user" "example.com");
      auto. }
  unfold handleConnection.
  change (wireLine "user@example.com")
    with ("user@example.com" +:+ String LF EmptyString).
  change (String.length ("user@example.com" +:+ String LF EmptyString)) with 17.
  split.
  - intros r Hr Hiso.
    rewrite (serve_line net rnd _ exampleGlobals "user@example.com" EmptyString w)
      by reflexivity.
    unfold bind at 1. rewrite Hres.
    rewrite (rangeMxs_country_answer net rnd _ _ _ _ _ _ _ _ _
               (getIp_one_address net rnd _ _ _ Hip)
               (getCountryByIp_record net _ _ _ _ Hopen Hr)).
    rewrite Hiso.
    change (destinationMap exampleGlobals !! "DE") with (Some ["10.0.0.3"]).
    cbv iota. unfold bind at 1, Intn at 1. cbn [length Nat.eqb].
    rewrite Nat.mod_1_r. cbn [sliceIndex lookup list_lookup ret].
    rewrite emit_then. rewrite serve_end by reflexivity.
    eexists. split; [reflexivity|]. cbn [calls addCalls draws].
    rewrite !written_app. cbn. now rewrite !app_nil_r.
  - intros e He.
    rewrite (serve_line net rnd _ exampleGlobals "user@example.com" EmptyString w)
      by reflexivity.
    unfold bind at 1. rewrite Hres.
    rewrite (rangeMxs_country_error net rnd _ _ _ _ _ _ _ _ _
               (getIp_one_address net rnd _ _ _ Hip)
               (getCountryByIp_error net _ _ _ _ Hopen He)).
    cbn [rangeMxs ret]. rewrite emit_then. rewrite serve_end by reflexivity.
    eexists. split; [reflexivity|]. cbn [calls addCalls draws].
    rewrite !written_app. cbn. rewrite !app_nil_r.
    destruct Ht as [-> | ->]; [now left | now right].
Qed.

(** ** Reading a line *)

(** After a read without error the data is a line with its terminator, so
    cutting the last byte off does not panic and leaves the line. *)
Lemma handler_strips_terminator (incoming data rest : string) (w : World) :
  ReadBytes incoming LF = (data, None, rest) ->
  exists line,
    data = wireLine line /\ strings.Count line LF = 0
    /\ incoming = wireLine line +:+ rest
    /\ sliceTo data (Z.of_nat (String.length data) - 1) w = Done line w.
Proof.
  intros H. apply ReadBytes_nil_error in H as (line & -> & Hc & ->).
  exists line. repeat split; [exact Hc | apply sliceTo_line].
Qed.

(** The handler on a complete line: the line goes to the resolver, the
    response is written, and the handler goes on with the bytes after. *)
Lemma handleConnection_line
  (net : Collaborators) (rnd : nat -> nat) (g : Globals)
  (line rest : string) (w : World) :
  strings.Count line LF = 0 ->
  handleConnection net rnd g (line +:+ String LF rest) w
  = (result <- getResult net rnd g line ;;
     emit (ConnWrite (genPostfixResponse result)) ;;;
     handleConnection net rnd g rest) w.
Proof.
  intros Hc. unfold handleConnection.
  rewrite (serve_line net rnd _ g line rest w Hc).
  unfold bind. destruct (getResult net rnd g line w); try reflexivity.
  cbv beta delta [emit] iota.
  apply serve_fuel; rewrite ?length_append; simpl; lia.
Qed.

(** A bare newline hands the empty string to the resolver. *)
Lemma bare_newline_resolves_empty_string
  (net : Collaborators) (rnd : nat -> nat) (g : Globals) (rest : string) (w : World) :
  handleConnection net rnd g (String LF rest) w
  = (result <- getResult net rnd g EmptyString ;;
     emit (ConnWrite (genPostfixResponse result)) ;;;
     handleConnection net rnd g rest) w.
Proof. now apply (handleConnection_line net rnd g EmptyString rest w). Qed.

(** C9. With a table the startup validation accepts and one target for the
    default country, a bare newline is read without error and the empty
    string goes to the resolver, but no response is written when the draw
    is [1]: the fallback pick panics. *)
Theorem C9_bare_newline_without_response (net : Collaborators) (w : World) :
  ReadBytes (wireLine EmptyString) LF = (wireLine EmptyString, None, EmptyString)
  /\ handleConnection net (always 1) singleGlobals (wireLine EmptyString) w
     = Panicked "index out of range" (mkWorld (S (draws w)) (calls w)).
Proof.
  split; [reflexivity|].
  change (wireLine EmptyString) with (String LF EmptyString).
  rewrite bare_newline_resolves_empty_string. unfold bind.
  now rewrite getResult_single_default_panics.
Qed.

(** ** Closed instances *)

(** C3: the country lookup of the first host fails after its address
    resolved, and the loop goes on to the second host, whose address
    resolves too and decides the destination. *)
Lemma C3_second_resolved_host_consulted :
  getResult (stubNet [mx1; mx2] dbFirstFails) (always 0) exampleGlobals
    "user@example.com" world0
  = Done "10.0.0.3"
      (mkWorld 2
         [CallLookupMX "example.com" (Ok [mx1; mx2]);
          CallLookupIP (Host mx1) (Ok [ip1]);
          CallGeoOpen true;
          CallGeoCountry ip1 (Err "lookup failed");
          CallLookupIP (Host mx2) (Ok [ip2]);
          CallGeoOpen true;
          CallGeoCountry ip2 (Ok (mkGeoRecord "DE"))]).
Proof. vm_compute. reflexivity. Qed.

Lemma C3_loop_ends_at_first_country_answer_witness :
  rangeMxs (stubNet [mx1; mx2] dbFirstDE) (always 0) exampleGlobals
    [mx1; mx2] "10.0.0.1" world0
  = rangeMxs (stubNet [mx1; mx2] dbFirstDE) (always 0) exampleGlobals
      [mx1] "10.0.0.1" world0
  /\ rangeMxs (stubNet [mx1; mx2] dbFirstFails) (always 0) exampleGlobals
       [mx1; mx2] "10.0.0.1" world0
     = rangeMxs (stubNet [mx1; mx2] dbFirstFails) (always 0) exampleGlobals
         [mx2] "10.0.0.1"
         (mkWorld 0 [CallLookupIP (Host mx1) (Ok [ip1]); CallGeoOpen true;
                     CallGeoCountry ip1 (Err "lookup failed")]).
Proof.
  split.
  - destruct (C3_loop_ends_at_first_country_answer
                (stubNet [mx1; mx2] dbFirstDE) (always 0) exampleGlobals
                mx1 [mx2] "10.0.0.1" world0) as (Hstop & _).
    apply (Hstop ip1 (mkWorld 0 [CallLookupIP (Host mx1) (Ok [ip1])]) "DE"
             (mkWorld 0 [CallLookupIP (Host mx1) (Ok [ip1]); CallGeoOpen true;
                         CallGeoCountry ip1 (Ok (mkGeoRecord "DE"))]));
      reflexivity.
  - destruct (C3_loop_ends_at_first_country_answer
                (stubNet [mx1; mx2] dbFirstFails) (always 0) exampleGlobals
                mx1 [mx2] "10.0.0.1" world0) as (_ & Hnext & _).
    apply (Hnext ip1 (mkWorld 0 [CallLookupIP (Host mx1) (Ok [ip1])])
             "lookup failed"); reflexivity.
Defined.

(** C4: a line with an empty local part, and one with an empty domain,
    both reach the MX lookup; the first is routed by the country of the
    MX host, not to a target of the default country. *)
Lemma C4_empty_part_reaches_mx_lookup :
  getResult (stubNet [mx1] dbFirstDE) (always 0) exampleGlobals
    "@example.com" world0
  = Done "10.0.0.3"
      (mkWorld 2
         [CallLookupMX "example.com" (Ok [mx1]);
          CallLookupIP (Host mx1) (Ok [ip1]);
          CallGeoOpen true;
          CallGeoCountry ip1 (Ok (mkGeoRecord "DE"))])
  /\ getResult (stubNet [mx1] dbFirstDE) (always 0) exampleGlobals
       "user@" world0
     = Done "10.0.0.1"
         (mkWorld 1 [CallLookupMX EmptyString (Err "no such host")]).
Proof. vm_compute. split; reflexivity. Qed.

(** C5: the database has no country for the address of the first host and
    answers without error; the loop ends there with the fallback, and the
    second host, which is in a mapped country, is never looked up. *)
Lemma C5_no_country_ends_the_loop :
  getResult (stubNet [mx1; mx2] dbFirstNoCountry) (always 0) exampleGlobals
    "user@example.com" world0
  = Done "10.0.0.1"
      (mkWorld 1
         [CallLookupMX "example.com" (Ok [mx1; mx2]);
          CallLookupIP (Host mx1) (Ok [ip1]);
          CallGeoOpen true;
          CallGeoCountry ip1 (Ok (mkGeoRecord EmptyString))]).
Proof. vm_compute. reflexivity. Qed.

Lemma C5_country_error_passes_host_over_witness :
  rangeMxs (stubNet [mx1; mx2] dbFirstFails) (always 0) exampleGlobals
    [mx1; mx2] "10.0.0.1" world0
  = rangeMxs (stubNet [mx1; mx2] dbFirstFails) (always 0) exampleGlobals
      [mx2] "10.0.0.1"
      (mkWorld 0 [CallLookupIP (Host mx1) (Ok [ip1]); CallGeoOpen true;
                  CallGeoCountry ip1 (Err "lookup failed")]).
Proof.
  refine (proj1 (C5_country_error_passes_host_over
                   (stubNet [mx1; mx2] dbFirstFails) (always 0) exampleGlobals
                   mx1 [mx2] "10.0.0.1" ip1 world0
                   (mkWorld 0 [CallLookupIP (Host mx1) (Ok [ip1])])
                   dbFirstFails eq_refl eq_refl) "lookup failed" eq_refl).
Defined.

(** ** When the fallback pick fails *)

(** For any configuration the validation accepts, the fallback is read at
    [rnd mod 2] in the default country's targets: it is there unless the
    country has a single target and the draw is [1]. *)
Lemma pickDefault_of_valid
  (uu : string -> string) (c : Context) (dflt : string) (g : Globals)
  (rnd : nat -> nat) (w : World) :
  argsHandler uu c (initGlobals dflt) = Returned None g ->
  exists l,
    destinationMap g !! defaultTarget g = Some l /\ l <> []
    /\ pickDefault rnd g w
       = match l !! (rnd (draws w) mod 2) with
         | Some t => Done t (mkWorld (S (draws w)) (calls w))
         | None => Panicked "index out of range" (mkWorld (S (draws w)) (calls w))
         end.
Proof.
  intros H. apply argsHandler_valid in H as (_ & Hlen & l & Hl & Hne).
  exists l. split; [exact Hl | split; [exact Hne|]].
  rewrite (pickDefault_two_bytes _ _ _ Hlen). unfold mapIndex. rewrite Hl. simpl.
  unfold sliceIndex. now destruct (l !! _).
Qed.

(** * Further properties *)

(** ** Startup: what an accepted configuration looks like *)

Lemma mapIndex_insert (dm : gmap string (list string)) (k k' : string)
  (l : list string) :
  mapIndex (<[k := l]> dm) k' = if String.eqb k k' then l else mapIndex dm k'.
Proof.
  unfold mapIndex. destruct (String.eqb_spec k k') as [->|Hne].
  - now rewrite lookup_insert_eq.
  - now rewrite lookup_insert_ne.
Qed.

Lemma addMappings_targets (uu : string -> string) (mapping : list string)
  (dm dm' : gmap string (list string)) (k : string) :
  addMappings uu mapping dm = (dm', None) ->
  mapIndex dm' k = mapIndex dm k ++ targetsFor uu k mapping.
Proof.
  revert dm. induction mapping as [|value more IH]; simpl; intros dm H.
  - inversion H; subst. now rewrite app_nil_r.
  - destruct (addMapping uu value dm) as [e|dm1] eqn:H1; [discriminate|].
    rewrite (IH _ H).
    apply addMapping_inr in H1 as (c & t & Hs & _ & _ & ->).
    unfold countryOf, targetOf. rewrite Hs. simpl. rewrite mapIndex_insert.
    destruct (String.eqb (strings.ToUpper uu c) k) eqn:Hk.
    + apply String.eqb_eq in Hk. subst k. now rewrite <- app_assoc.
    + reflexivity.
Qed.

(** X1. In an accepted configuration the targets of a country are the
    targets of the directives that name it (in any letter case), in the
    order the directives were given; nothing is dropped or merged, a
    repeated target stays repeated. *)
Theorem X1_targets_in_directive_order
  (uu : string -> string) (c : Context) (dflt : string) (g : Globals) (k : string) :
  argsHandler uu c (initGlobals dflt) = Returned None g ->
  mapIndex (destinationMap g) k = targetsFor uu k (flagTarget c).
Proof.
  intros H. apply argsHandler_nil_error in H as (dm & Hm & -> & _).
  simpl in *. rewrite (addMappings_targets uu _ _ _ k Hm).
  unfold mapIndex. now rewrite lookup_empty.
Qed.

Lemma X1_targets_in_directive_order_witness :
  mapIndex exampleTable "US" = ["10.0.0.1"; "10.0.0.2"]
  /\ mapIndex
       (<["US" := ["10.0.0.1"; "10.0.0.9"; "10.0.0.1"]]> ∅) "US"
     = targetsFor asciiOnly "US" ["us:10.0.0.1"; "Us:10.0.0.9"; "US:10.0.0.1"].
Proof.
  split.
  - apply (X1_targets_in_directive_order asciiOnly
             (mkContext false exampleMapping) "us" exampleGlobals "US").
    vm_compute. reflexivity.
  - refine (X1_targets_in_directive_order asciiOnly
              (mkContext false ["us:10.0.0.1"; "Us:10.0.0.9"; "US:10.0.0.1"]) "us"
              (mkGlobals (<["US" := ["10.0.0.1"; "10.0.0.9"; "10.0.0.1"]]> ∅) "US")
              "US" _).
    vm_compute. reflexivity.
Defined.

(** X2. A nil error of [argsHandler] means: help was not asked for, there
    is at least one directive and the loop took them all; [defaultTarget]
    now holds the upper-cased flag and is a key with at least one target;
    the keys of the table are exactly the upper-cased countries of the
    directives, each of two bytes, and no key has an empty target list. *)
Theorem X2_accepted_configuration
  (uu : string -> string) (c : Context) (dflt : string) (g : Globals) :
  argsHandler uu c (initGlobals dflt) = Returned None g ->
  flagHelp c = false
  /\ flagTarget c <> []
  /\ defaultTarget g = strings.ToUpper uu dflt
  /\ validTable (destinationMap g)
  /\ (exists l, destinationMap g !! defaultTarget g = Some l /\ l <> [])
  /\ (forall k, is_Some (destinationMap g !! k)
        <-> exists value, value ∈ flagTarget c /\ k = countryOf uu value).
Proof.
  intros H.
  assert (Hh : flagHelp c = false).
  { unfold argsHandler in H. now destruct (flagHelp c). }
  assert (Hne : flagTarget c <> []).
  { unfold argsHandler in H. rewrite Hh in H.
    destruct (flagTarget c); [discriminate | discriminate]. }
  destruct (argsHandler_valid uu _ _ _ H) as (Hv & _ & l & Hl & Hln).
  apply argsHandler_nil_error in H as (dm & Hm & -> & _). simpl in *.
  split; [exact Hh|]. split; [exact Hne|]. split; [reflexivity|].
  split; [exact Hv|]. split; [exists l; now split|].
  intros k. split.
  - intros Hk. apply (addMappings_keys uu _ _ _ _ Hm) in Hk as [Hk|Hk]; [|exact Hk].
    rewrite lookup_empty in Hk. now destruct Hk.
  - intros Hk. apply (addMappings_keys uu _ _ _ k Hm). now right.
Qed.

Lemma X2_accepted_configuration_witness :
  flagHelp (mkContext false exampleMapping) = false
  /\ flagTarget (mkContext false exampleMapping) <> []
  /\ defaultTarget exampleGlobals = strings.ToUpper asciiOnly "us"
  /\ validTable (destinationMap exampleGlobals)
  /\ (exists l, destinationMap exampleGlobals !! defaultTarget exampleGlobals
                = Some l /\ l <> [])
  /\ (forall k, is_Some (destinationMap exampleGlobals !! k)
        <-> exists value, value ∈ flagTarget (mkContext false exampleMapping)
                          /\ k = countryOf asciiOnly value).
Proof.
  apply (X2_accepted_configuration asciiOnly (mkContext false exampleMapping)
           "us" exampleGlobals).
  vm_compute. reflexivity.
Defined.

Lemma addMappings_app_error (uu : string -> string) (good rest : list string)
  (bad : string) (dm dm1 : gmap string (list string)) (e : ConfigError) :
  addMappings uu good dm = (dm1, None) ->
  addMapping uu bad dm1 = inl e ->
  addMappings uu (good ++ bad :: rest) dm = (dm1, Some e).
Proof.
  revert dm. induction good as [|value more IH]; simpl; intros dm Hg Hb.
  - inversion Hg; subst. now rewrite Hb.
  - destruct (addMapping uu value dm) as [e'|dm'] eqn:H1; [discriminate|].
    now apply IH.
Qed.

(** X3. The first directive the loop refuses decides the outcome: its
    error is the one returned, the directives after it are not looked at,
    the table keeps what the directives before it put in, and
    [defaultTarget] is left as typed; [main] then leaves the process. *)
Theorem X3_first_refused_directive_decides
  (uu : string -> string) (c : Context) (dflt : string)
  (good rest : list string) (bad : string)
  (dm1 : gmap string (list string)) (e : ConfigError) :
  flagHelp c = false ->
  flagTarget c = good ++ bad :: rest ->
  addMappings uu good ∅ = (dm1, None) ->
  addMapping uu bad dm1 = inl e ->
  argsHandler uu c (initGlobals dflt) = Returned (Some e) (mkGlobals dm1 dflt)
  /\ mainStart uu c dflt = ProcessExit 1.
Proof.
  intros Hh Ht Hg Hb.
  assert (Ha : argsHandler uu c (initGlobals dflt)
               = Returned (Some e) (mkGlobals dm1 dflt)).
  { unfold argsHandler. rewrite Hh, Ht. simpl destinationMap.
    rewrite (addMappings_app_error uu _ rest _ _ _ _ Hg Hb).
    destruct good; reflexivity. }
  split; [exact Ha|]. unfold mainStart. now rewrite Ha.
Qed.

Lemma X3_first_refused_directive_decides_witness :
  argsHandler asciiOnly
    (mkContext false ["de:10.0.0.3"; "USA:10.0.0.1"; "no colon"]) (initGlobals "de")
  = Returned (Some (InvalidCountryCode "USA"))
      (mkGlobals (<["DE" := ["10.0.0.3"]]> ∅) "de")
  /\ mainStart asciiOnly
       (mkContext false ["de:10.0.0.3"; "USA:10.0.0.1"; "no colon"]) "de"
     = ProcessExit 1.
Proof.
  apply (X3_first_refused_directive_decides asciiOnly
           (mkContext false ["de:10.0.0.3"; "USA:10.0.0.1"; "no colon"]) "de"
           ["de:10.0.0.3"] ["no colon"] "USA:10.0.0.1"
           (<["DE" := ["10.0.0.3"]]> ∅) (InvalidCountryCode "USA"));
    vm_compute; reflexivity.
Defined.

(** ** Startup: letter case of country codes *)










(** ** The resolver: the domain of a line *)

Lemma Split_one_inv (s b : string) (sep : ascii) :
  strings.Split s sep = [b] -> s = b /\ strings.Count b sep = 0.
Proof.
  revert b. induction s as [|c s IH]; simpl; intros b H.
  - inversion H. now split.
  - destruct (Ascii.eqb c sep) eqn:Hc.
    + inversion H as [[Hb Hs]]. pose proof (Split_length s sep) as Hl.
      rewrite Hs in Hl. discriminate.
    + destruct (strings.Split s sep) as [|p ps] eqn:Hs; inversion H; subst.
      * pose proof (Split_length s sep) as Hl. rewrite Hs in Hl. discriminate.
      * destruct (IH p eq_refl) as [-> Hp]. simpl. rewrite Hc. now split.
Qed.

Lemma Split_two_inv (s a b : string) (sep : ascii) :
  strings.Split s sep = [a; b] ->
  s = a +:+ String sep b /\ strings.Count a sep = 0 /\ strings.Count b sep = 0.
Proof.
  revert a. induction s as [|c s IH]; simpl; intros a H.
  - discriminate.
  - destruct (Ascii.eqb_spec c sep) as [->|Hne].
    + inversion H as [[Ha Hs]]. apply Split_one_inv in Hs as [-> Hb].
      now repeat split.
    + destruct (strings.Split s sep) as [|p ps] eqn:Hs; inversion H; subst.
      destruct (IH p eq_refl) as (-> & Hp & Hb). simpl.
      destruct (Ascii.eqb_spec c sep) as [|_]; [contradiction|].
      now repeat split.
Qed.

(** X5. [getEmailDomain] answers without error exactly for the lines with
    one ['@'], and its answer is everything after that ['@'] (which may be
    empty); the part before the ['@'] may be empty too. Every other line
    is an error. *)
Theorem X5_domain_is_what_follows_the_at_sign (email domain : string) :
  (getEmailDomain email = Ok domain
   <-> exists user,
         email = user +:+ String at_sign domain
         /\ strings.Count user at_sign = 0 /\ strings.Count domain at_sign = 0)
  /\ ((exists msg, getEmailDomain email = Err msg)
      <-> strings.Count email at_sign <> 1).
Proof.
  unfold getEmailDomain. split; split.
  - destruct (strings.Split email at_sign) as [|a [|b [|x l]]] eqn:Hs;
      simpl; try discriminate.
    intros [= <-]. exists a. now apply Split_two_inv.
  - intros (user & -> & Hu & Hd). now rewrite Split_directive.
  - intros [msg H]. rewrite Split_length in H.
    destruct (Nat.eqb_spec (S (strings.Count email at_sign)) 2); [|lia].
    discriminate.
  - intros H. rewrite Split_length.
    destruct (Nat.eqb_spec (S (strings.Count email at_sign)) 2); [lia|].
    simpl. eauto.
Qed.

(** X6. The answer depends on a line only through what follows its
    ['@']: two lines with the same domain are resolved the same way, with
    the same calls and the same draws, whatever stands before the ['@']
    (a local part, nothing, or a request verb and a local part). *)
Theorem X6_only_the_domain_matters
  (net : Collaborators) (rnd : nat -> nat) (g : Globals)
  (user1 user2 domain : string) (w : World) :
  strings.Count user1 at_sign = 0 -> strings.Count user2 at_sign = 0 ->
  strings.Count domain at_sign = 0 ->
  getResult net rnd g (user1 +:+ String at_sign domain) w
  = getResult net rnd g (user2 +:+ String at_sign domain) w.
Proof.
  intros H1 H2 Hd. unfold getResult, getEmailDomain.
  now rewrite !Split_directive by assumption.
Qed.

Lemma X6_only_the_domain_matters_witness :
  getResult (stubNet [mx1; mx2] dbFirstFails) (always 1) exampleGlobals
    "get user@example.com" world0
  = getResult (stubNet [mx1; mx2] dbFirstFails) (always 1) exampleGlobals
      "@example.com" world0.
Proof.
  exact (X6_only_the_domain_matters (stubNet [mx1; mx2] dbFirstFails) (always 1)
           exampleGlobals "get user" EmptyString "example.com" world0
           eq_refl eq_refl eq_refl).
Defined.

(** ** The resolver: which host decides *)

Lemma getIp_noAddress (net : Collaborators) (rnd : nat -> nat) (mx : MX) (w : World) :
  noAddress net mx = true ->
  exists e,
    getIp net rnd mx w
    = Done (Err e) (addCalls w [CallLookupIP (Host mx) (LookupIP net (Host mx))]).
Proof.
  unfold noAddress, getIp. cbv zeta. rewrite emit_then.
  destruct (LookupIP net (Host mx)) as [[|ip ips]|m]; try discriminate;
    intros _; eexists; reflexivity.
Qed.

(** Hosts without an address are passed over, one lookup each. *)
Lemma rangeMxs_skips (net : Collaborators) (rnd : nat -> nat) (g : Globals)
  (before rest : list MX) (destination : string) (w : World) :
  forallb (noAddress net) before = true ->
  rangeMxs net rnd g (before ++ rest) destination w
  = rangeMxs net rnd g rest destination (addCalls w (lookupEvents net before)).
Proof.
  revert w. induction before as [|mx before IH]; intros w H.
  - unfold addCalls. simpl. rewrite app_nil_r. now destruct w.
  - simpl in H. apply andb_true_iff in H as [Hmx Hrest].
    destruct (getIp_noAddress net rnd mx w Hmx) as [e He].
    change ((mx :: before) ++ rest) with (mx :: (before ++ rest)).
    rewrite (rangeMxs_ip_error net rnd _ _ _ _ _ _ _ He).
    rewrite (IH _ Hrest). now rewrite addCalls_addCalls.
Qed.

(** What [getResult] does on a line with one ['@'], in terms of the
    fallback pick and the MX answer. *)
Lemma getResult_one_at (net : Collaborators) (rnd : nat -> nat) (g : Globals)
  (user domain : string) (w : World) :
  strings.Count user at_sign = 0 -> strings.Count domain at_sign = 0 ->
  getResult net rnd g (user +:+ String at_sign domain) w
  = match pickDefault rnd g w with
    | Done t w1 =>
        let w2 := addCalls w1 [CallLookupMX domain (LookupMX net domain)] in
        match LookupMX net domain with
        | Err _ => Done t w2
        | Ok mxs => rangeMxs net rnd g mxs t w2
        end
    | Panicked msg w1 => Panicked msg w1
    | Exited msg w1 => Exited msg w1
    end.
Proof.
  intros Hu Hd. unfold getResult, getEmailDomain.
  rewrite (Split_directive _ _ _ Hu Hd). unfold bind at 1.
  destruct (pickDefault rnd g w) as [t w1|msg w1|msg w1]; try reflexivity.
  simpl. unfold getMx. cbv zeta. unfold bind at 1. rewrite emit_then.
  unfold ret. now destruct (LookupMX net domain).
Qed.

(** X7. When the MX lookup of the domain fails or gives no host, the
    answer is the fallback picked at the start, and the MX lookup is the
    only call made: no address and no country is looked up. *)
Theorem X7_no_mx_host_gives_fallback
  (net : Collaborators) (rnd : nat -> nat) (g : Globals)
  (user domain t : string) (w w1 : World) :
  strings.Count user at_sign = 0 -> strings.Count domain at_sign = 0 ->
  (LookupMX net domain = Ok [] \/ exists m, LookupMX net domain = Err m) ->
  pickDefault rnd g w = Done t w1 ->
  getResult net rnd g (user +:+ String at_sign domain) w
  = Done t (addCalls w1 [CallLookupMX domain (LookupMX net domain)]).
Proof.
  intros Hu Hd Hmx Hpick. rewrite (getResult_one_at _ _ _ _ _ _ Hu Hd), Hpick.
  cbv zeta. destruct Hmx as [Hmx|[m Hmx]]; now rewrite Hmx.
Qed.

Lemma X7_no_mx_host_gives_fallback_witness :
  getResult (stubNet [] dbFirstDE) (always 1) exampleGlobals
    "user@example.com" world0
  = Done "10.0.0.2" (mkWorld 1 [CallLookupMX "example.com" (Ok [])])
  /\ getResult (stubNet [mx1] dbFirstDE) (always 1) exampleGlobals
       "user@example.org" world0
     = Done "10.0.0.2" (mkWorld 1 [CallLookupMX "example.org" (Err "no such host")]).
Proof.
  split.
  - refine (X7_no_mx_host_gives_fallback (stubNet [] dbFirstDE) (always 1)
              exampleGlobals "user" "example.com" "10.0.0.2" world0 (mkWorld 1 [])
              eq_refl eq_refl (or_introl eq_refl) eq_refl).
  - refine (X7_no_mx_host_gives_fallback (stubNet [mx1] dbFirstDE) (always 1)
              exampleGlobals "user" "example.org" "10.0.0.2" world0 (mkWorld 1 [])
              eq_refl eq_refl
              (or_intror (ex_intro _ "no such host" eq_refl)) eq_refl).
Defined.

(** X8. When no MX host of the domain has an address (every address
    lookup fails or comes back empty), every host is tried once, in the
    order of the MX answer, the database is never opened, and the answer
    is the fallback. *)
Theorem X8_hosts_without_address_give_fallback
  (net : Collaborators) (rnd : nat -> nat) (g : Globals)
  (user domain t : string) (mxs : list MX) (w w1 : World) :
  strings.Count user at_sign = 0 -> strings.Count domain at_sign = 0 ->
  LookupMX net domain = Ok mxs ->
  forallb (noAddress net) mxs = true ->
  pickDefault rnd g w = Done t w1 ->
  getResult net rnd g (user +:+ String at_sign domain) w
  = Done t (addCalls w1 (CallLookupMX domain (Ok mxs) :: lookupEvents net mxs)).
Proof.
  intros Hu Hd Hmx Hall Hpick.
  rewrite (getResult_one_at _ _ _ _ _ _ Hu Hd), Hpick. cbv zeta. rewrite Hmx.
  match goal with |- rangeMxs _ _ _ _ _ ?W = _ =>
    pose proof (rangeMxs_skips net rnd g mxs [] t W Hall) as Hs end.
  rewrite app_nil_r in Hs. rewrite Hs. simpl.
  now rewrite addCalls_addCalls.
Qed.

Lemma X8_hosts_without_address_give_fallback_witness :
  getResult (stubNet [unknownHost1; unknownHost2] dbFirstDE) (always 0)
    exampleGlobals "user@example.com" world0
  = Done "10.0.0.1"
      (mkWorld 1
         [CallLookupMX "example.com" (Ok [unknownHost1; unknownHost2]);
          CallLookupIP (Host unknownHost1) (Err "no such host");
          CallLookupIP (Host unknownHost2) (Err "no such host")]).
Proof.
  refine (X8_hosts_without_address_give_fallback
            (stubNet [unknownHost1; unknownHost2] dbFirstDE) (always 0)
            exampleGlobals "user" "example.com" "10.0.0.1"
            [unknownHost1; unknownHost2] world0 (mkWorld 1 [])
            eq_refl eq_refl eq_refl eq_refl eq_refl).
Defined.

Lemma pick_exact {A} (rnd : nat -> nat) (value : list A) (w : World) :
  (i <- Intn rnd (length value) ;; sliceIndex value i) w
  = match value !! (rnd (draws w) mod length value) with
    | Some x => Done x (mkWorld (S (draws w)) (calls w))
    | None => Panicked "invalid argument to Intn" w
    end.
Proof.
  destruct value as [|v vs]; [reflexivity|].
  unfold bind, Intn. change (length (v :: vs) =? 0)%nat with false. cbv iota.
  assert (Hlt : rnd (draws w) mod length (v :: vs) < length (v :: vs))
    by (apply Nat.mod_upper_bound; discriminate).
  apply lookup_lt_is_Some_2 in Hlt as [x Hx].
  unfold sliceIndex. now rewrite Hx.
Qed.

(** X9. The MX hosts are tried in the order of the MX answer. When the
    hosts before [mx] have no address, [mx] has one, and the database has
    a record for it, then [mx] decides: if the record's country is a key
    of the table the answer is the target at index [draw mod length] of
    that country's targets (so every target of the country can be picked),
    otherwise it is the fallback; and the hosts after [mx] are never
    looked up. *)
Theorem X9_first_host_with_a_country_decides
  (net : Collaborators) (rnd : nat -> nat) (g : Globals)
  (user domain t : string) (before later : list MX) (mx : MX) (ip : IP)
  (db : IP -> GoResult GeoRecord) (r : GeoRecord) (w w1 : World) :
  strings.Count user at_sign = 0 -> strings.Count domain at_sign = 0 ->
  pickDefault rnd g w = Done t w1 ->
  LookupMX net domain = Ok (before ++ mx :: later) ->
  forallb (noAddress net) before = true ->
  LookupIP net (Host mx) = Ok [ip] ->
  geoOpen net = Ok db -> db ip = Ok r ->
  let w2 :=
    addCalls w1
      (CallLookupMX domain (Ok (before ++ mx :: later))
       :: lookupEvents net before
       ++ [CallLookupIP (Host mx) (Ok [ip]); CallGeoOpen true;
           CallGeoCountry ip (Ok r)]) in
  getResult net rnd g (user +:+ String at_sign domain) w
  = match destinationMap g !! IsoCode r with
    | None => Done t w2
    | Some value =>
        match value !! (rnd (draws w1) mod length value) with
        | Some x => Done x (mkWorld (S (draws w1)) (calls w2))
        | None => Panicked "invalid argument to Intn" w2
        end
    end.
Proof.
  intros Hu Hd Hpick Hmx Hall Hip Hopen Hr w2.
  rewrite (getResult_one_at _ _ _ _ _ _ Hu Hd), Hpick. cbv zeta. rewrite Hmx.
  rewrite (rangeMxs_skips net rnd g before _ t _ Hall).
  rewrite (rangeMxs_country_answer net rnd _ _ _ _ _ _ _ _ _
             (getIp_one_address net rnd _ _ _ Hip)
             (getCountryByIp_record net _ _ _ _ Hopen Hr)).
  assert (Hw : addCalls
                 (addCalls
                    (addCalls
                       (addCalls w1 [CallLookupMX domain (Ok (before ++ mx :: later))])
                       (lookupEvents net before))
                    [CallLookupIP (Host mx) (Ok [ip])])
                 [CallGeoOpen true; CallGeoCountry ip (Ok r)] = w2).
  { unfold w2. rewrite !addCalls_addCalls. simpl. rewrite <- ?app_assoc.
    reflexivity. }
  rewrite Hw. destruct (destinationMap g !! IsoCode r) as [value|]; [|reflexivity].
  now rewrite pick_exact.
Qed.

Lemma X9_first_host_with_a_country_decides_witness :
  getResult (stubNet [unknownHost1; mx1; mx2] dbFirstDE) (always 0)
    exampleGlobals "user@example.com" world0
  = Done "10.0.0.3"
      (mkWorld 2
         [CallLookupMX "example.com" (Ok [unknownHost1; mx1; mx2]);
          CallLookupIP (Host unknownHost1) (Err "no such host");
          CallLookupIP (Host mx1) (Ok [ip1]);
          CallGeoOpen true;
          CallGeoCountry ip1 (Ok (mkGeoRecord "DE"))]).
Proof.
  refine (X9_first_host_with_a_country_decides
            (stubNet [unknownHost1; mx1; mx2] dbFirstDE) (always 0)
            exampleGlobals "user" "example.com" "10.0.0.1"
            [unknownHost1] [mx2] mx1 ip1 dbFirstDE (mkGeoRecord "DE")
            world0 (mkWorld 1 [])
            eq_refl eq_refl eq_refl eq_refl eq_refl eq_refl eq_refl eq_refl).
Defined.

(** A host with an address: [getIp] returns one of its addresses, after
    one draw when there are several. *)
Lemma getIp_resolves (net : Collaborators) (rnd : nat -> nat) (mx : MX)
  (ip : IP) (ips : list IP) (w : World) :
  LookupIP net (Host mx) = Ok (ip :: ips) ->
  exists ip',
    ip' ∈ ip :: ips
    /\ getIp net rnd mx w
       = Done (Ok ip')
           (mkWorld (match ips with [] => draws w | _ :: _ => S (draws w) end)
              (calls w ++ [CallLookupIP (Host mx) (Ok (ip :: ips))])).
Proof.
  intros Hl. unfold getIp. cbv zeta. rewrite emit_then, Hl.
  destruct ips as [|ip2 ips].
  - exists ip. split; [apply elem_of_cons; now left | reflexivity].
  - set (l := ip :: ip2 :: ips).
    change (length l =? 1)%nat with false. change (1 <? length l)%nat with true.
    cbv iota.
    assert (Hlt : rnd (draws w) mod length l < length l)
      by (apply Nat.mod_upper_bound; discriminate).
    apply lookup_lt_is_Some_2 in Hlt as [x Hx]. exists x.
    split; [eapply list_elem_of_lookup_2; eauto|].
    apply (pick_then rnd l Ok). rewrite pick_exact. simpl draws. now rewrite Hx.
Qed.

(** X10. When the database file cannot be opened, the first MX host that
    has an address, one or several, ends the process through
    [log.Fatalf]: [getResult] does not return, so the line gets no answer,
    and the hosts after it are never looked up. One number is drawn when
    the host has several addresses, none when it has one. Lines that reach
    no address lookup are not affected (X7, X8). *)
Theorem X10_database_open_failure_is_fatal
  (net : Collaborators) (rnd : nat -> nat) (g : Globals)
  (user domain t m : string) (before later : list MX) (mx : MX)
  (ip : IP) (ips : list IP) (w w1 : World) :
  strings.Count user at_sign = 0 -> strings.Count domain at_sign = 0 ->
  pickDefault rnd g w = Done t w1 ->
  LookupMX net domain = Ok (before ++ mx :: later) ->
  forallb (noAddress net) before = true ->
  LookupIP net (Host mx) = Ok (ip :: ips) ->
  geoOpen net = Err m ->
  getResult net rnd g (user +:+ String at_sign domain) w
  = Exited ("Open GeoIP DB file error: " +:+ m)
      (mkWorld (match ips with [] => draws w1 | _ :: _ => S (draws w1) end)
         (calls w1
          ++ CallLookupMX domain (Ok (before ++ mx :: later))
             :: lookupEvents net before
             ++ [CallLookupIP (Host mx) (Ok (ip :: ips)); CallGeoOpen false])).
Proof.
  intros Hu Hd Hpick Hmx Hall Hip Hopen.
  rewrite (getResult_one_at _ _ _ _ _ _ Hu Hd), Hpick. cbv zeta. rewrite Hmx.
  rewrite (rangeMxs_skips net rnd g before _ t _ Hall).
  match goal with |- rangeMxs _ _ _ _ _ ?W = _ =>
    destruct (getIp_resolves net rnd mx ip ips W Hip) as (ip' & _ & Hrun) end.
  rewrite (rangeMxs_exit net rnd _ _ _ _ _ _ _ _ _ Hrun
             (getCountryByIp_open_fails net _ _ _ Hopen)).
  unfold addCalls. simpl. rewrite <- !app_assoc. reflexivity.
Qed.

Lemma X10_database_open_failure_is_fatal_witness :
  getResult (stubNetNoDatabase [unknownHost1; mx1; mx2]) (always 0)
    exampleGlobals "user@example.com" world0
  = Exited
      "Open GeoIP DB file error: open GeoLite2-Country.mmdb: no such file or directory"
      (mkWorld 1
         [CallLookupMX "example.com" (Ok [unknownHost1; mx1; mx2]);
          CallLookupIP (Host unknownHost1) (Err "no such host");
          CallLookupIP (Host mx1) (Ok [ip1]);
          CallGeoOpen false])
  /\ getResult stubNetTwoAddresses (always 0)
       exampleGlobals "user@example.com" world0
     = Exited
         "Open GeoIP DB file error: open GeoLite2-Country.mmdb: no such file or directory"
         (mkWorld 2
            [CallLookupMX "example.com" (Ok [unknownHost1; twoAddressHost]);
             CallLookupIP (Host unknownHost1) (Err "no such host");
             CallLookupIP (Host twoAddressHost) (Ok [ip1; ip2]);
             CallGeoOpen false]).
Proof.
  split.
  - refine (X10_database_open_failure_is_fatal
              (stubNetNoDatabase [unknownHost1; mx1; mx2]) (always 0)
              exampleGlobals "user" "example.com" "10.0.0.1"
              "open GeoLite2-Country.mmdb: no such file or directory"
              [unknownHost1] [mx2] mx1 ip1 [] world0 (mkWorld 1 [])
              eq_refl eq_refl eq_refl eq_refl eq_refl eq_refl eq_refl).
  - refine (X10_database_open_failure_is_fatal
              stubNetTwoAddresses (always 0)
              exampleGlobals "user" "example.com" "10.0.0.1"
              "open GeoLite2-Country.mmdb: no such file or directory"
              [unknownHost1] [] twoAddressHost ip1 [ip2] world0 (mkWorld 1 [])
              eq_refl eq_refl eq_refl eq_refl eq_refl eq_refl eq_refl).
Defined.

(** ** The resolver: what it answers with, and when it answers *)

Lemma mapIndex_configured (dm : gmap string (list string)) (k t : string) :
  t ∈ mapIndex dm k -> configured dm t.
Proof.
  unfold mapIndex, configured. destruct (dm !! k) as [l|] eqn:Hl; simpl.
  - intros H. now exists k, l.
  - intros H. now apply elem_of_nil in H.
Qed.

(** The loop over the MX hosts: it writes nothing to the connection, and
    a destination it returns is the one it was given or a target of the
    table. *)
Lemma rangeMxs_outcome (net : Collaborators) (rnd : nat -> nat) (g : Globals)
  (mxs : list MX) (destination : string) (w : World) :
  exists events,
    written events = []
    /\ calls (worldOf (rangeMxs net rnd g mxs destination w)) = calls w ++ events
    /\ (forall t w', rangeMxs net rnd g mxs destination w = Done t w' ->
          t = destination \/ configured (destinationMap g) t).
Proof.
  revert w. induction mxs as [|mx later IH]; intros w.
  - exists []. simpl. rewrite app_nil_r. repeat split.
    intros t w' [= <- _]. now left.
  - destruct (getIp_cases net rnd mx w)
      as [(e & Hrun & _) | (ip & ips & n & Hl & Hin & Hrun)].
    + rewrite (rangeMxs_ip_error _ _ _ _ _ _ _ _ _ Hrun).
      destruct (IH (addCalls w [CallLookupIP (Host mx) (LookupIP net (Host mx))]))
        as (events & Hw & Hc & Ht).
      exists (CallLookupIP (Host mx) (LookupIP net (Host mx)) :: events).
      split; [exact Hw|]. split; [|exact Ht].
      rewrite Hc. simpl. now rewrite <- app_assoc.
    + destruct (geoOpen net) as [db|msg] eqn:Hopen.
      * destruct (db ip) as [r|e] eqn:Hdb.
        -- rewrite (rangeMxs_country_answer _ _ _ _ _ _ _ _ _ _ _ Hrun
                      (getCountryByIp_record _ _ _ _ _ Hopen Hdb)).
           exists [CallLookupIP (Host mx) (Ok ips);
                   CallGeoOpen true; CallGeoCountry ip (Ok r)].
           split; [reflexivity|].
           destruct (destinationMap g !! IsoCode r) as [value|] eqn:Hv.
           ++ split.
              ** rewrite pick_calls. simpl. rewrite Hl. now rewrite <- app_assoc.
              ** rewrite pick_exact. intros t w' H.
                 destruct (value !! _) as [x|] eqn:Hx; [|discriminate].
                 inversion H; subst. right. exists (IsoCode r), value.
                 split; [exact Hv | eapply list_elem_of_lookup_2; eauto].
           ++ split.
              ** simpl. rewrite Hl. now rewrite <- app_assoc.
              ** intros t w' [= <- _]. now left.
        -- rewrite (rangeMxs_country_error _ _ _ _ _ _ _ _ _ _ _ Hrun
                      (getCountryByIp_error _ _ _ _ _ Hopen Hdb)).
           match goal with |- context [rangeMxs net rnd g later destination ?w2] =>
             destruct (IH w2) as (events & Hw & Hc & Ht) end.
           exists ([CallLookupIP (Host mx) (Ok ips); CallGeoOpen true;
                    CallGeoCountry ip (Err e)] ++ events).
           split; [rewrite written_app; now rewrite Hw|]. split; [|exact Ht].
           rewrite Hc. simpl. rewrite Hl, <- !app_assoc. reflexivity.
      * rewrite (rangeMxs_exit _ _ _ _ _ _ _ _ _ _ _ Hrun
                   (getCountryByIp_open_fails _ _ _ _ Hopen)).
        exists [CallLookupIP (Host mx) (Ok ips); CallGeoOpen false].
        split; [reflexivity|]. split; [|discriminate].
        simpl. rewrite Hl, <- app_assoc. reflexivity.
Qed.

Lemma getResult_outcome (net : Collaborators) (rnd : nat -> nat) (g : Globals)
  (email : string) (w : World) :
  exists events,
    written events = []
    /\ calls (worldOf (getResult net rnd g email w)) = calls w ++ events
    /\ (forall t w', getResult net rnd g email w = Done t w' ->
          configured (destinationMap g) t).
Proof.
  unfold getResult, bind.
  destruct (pickDefault rnd g w) as [t0 w1|msg w1|msg w1] eqn:Hpick.
  - apply pickDefault_done in Hpick as [Hin ->].
    apply mapIndex_configured in Hin.
    destruct (getEmailDomain email) as [domain|msg].
    + unfold getMx. cbv zeta. rewrite emit_then. unfold ret.
      destruct (LookupMX net domain) as [mxs|msg] eqn:Hmx.
      * match goal with |- context [rangeMxs net rnd g mxs t0 ?w2] =>
          destruct (rangeMxs_outcome net rnd g mxs t0 w2)
            as (events & Hw & Hc & Ht) end.
        exists (CallLookupMX domain (Ok mxs) :: events).
        split; [exact Hw|]. split.
        -- rewrite Hc. simpl. now rewrite <- app_assoc.
        -- intros t w' H. destruct (Ht t w' H) as [->|Hconf]; assumption.
      * exists [CallLookupMX domain (Err msg)]. repeat split.
        intros t w' [= <- _]. exact Hin.
    + exists []. simpl. rewrite app_nil_r. repeat split.
      intros t w' [= <- _]. exact Hin.
  - exists []. rewrite <- (pickDefault_calls rnd g w), Hpick. simpl.
    rewrite app_nil_r. repeat split. discriminate.
  - exists []. rewrite <- (pickDefault_calls rnd g w), Hpick. simpl.
    rewrite app_nil_r. repeat split. discriminate.
Qed.

(** X12. Whatever the line, the network and the random source, a
    destination [getResult] returns is a target of the table: the resolver
    never answers with anything that was not configured (no part of the
    line, no host name, no country code). *)
Theorem X12_answers_are_configured_targets
  (net : Collaborators) (rnd : nat -> nat) (g : Globals)
  (email t : string) (w w' : World) :
  getResult net rnd g email w = Done t w' ->
  configured (destinationMap g) t.
Proof.
  intros H. destruct (getResult_outcome net rnd g email w) as (_ & _ & _ & Ht).
  exact (Ht t w' H).
Qed.

Lemma X12_answers_are_configured_targets_witness :
  configured (destinationMap exampleGlobals) "10.0.0.3".
Proof.
  refine (X12_answers_are_configured_targets
            (stubNet [mx1; mx2] dbFirstFails) (always 0) exampleGlobals
            "user@example.com" "10.0.0.3" world0
            (mkWorld 2
               [CallLookupMX "example.com" (Ok [mx1; mx2]);
                CallLookupIP (Host mx1) (Ok [ip1]);
                CallGeoOpen true;
                CallGeoCountry ip1 (Err "lookup failed");
                CallLookupIP (Host mx2) (Ok [ip2]);
                CallGeoOpen true;
                CallGeoCountry ip2 (Ok (mkGeoRecord "DE"))]) _).
  vm_compute. reflexivity.
Defined.

(** With a valid table and a database that opens, the loop always
    returns. *)
Lemma rangeMxs_returns (net : Collaborators) (rnd : nat -> nat) (g : Globals)
  (db : IP -> GoResult GeoRecord) (mxs : list MX) (destination : string) (w : World) :
  validTable (destinationMap g) -> geoOpen net = Ok db ->
  exists t w', rangeMxs net rnd g mxs destination w = Done t w'.
Proof.
  intros Hvalid Hopen. revert w. induction mxs as [|mx later IH]; intros w.
  - now exists destination, w.
  - destruct (getIp_cases net rnd mx w)
      as [(e & Hrun & _) | (ip & ips & n & Hl & Hin & Hrun)].
    + rewrite (rangeMxs_ip_error _ _ _ _ _ _ _ _ _ Hrun). apply IH.
    + destruct (db ip) as [r|e] eqn:Hdb.
      * rewrite (rangeMxs_country_answer _ _ _ _ _ _ _ _ _ _ _ Hrun
                   (getCountryByIp_record _ _ _ _ _ Hopen Hdb)).
        destruct (destinationMap g !! IsoCode r) as [value|] eqn:Hv.
        -- destruct (Hvalid _ _ Hv) as [_ Hne].
           match goal with |- context [bind _ _ ?w2] =>
             destruct (pick_in_range rnd value w2 Hne) as (x & _ & Hx) end.
           rewrite Hx. eauto.
        -- eauto.
      * rewrite (rangeMxs_country_error _ _ _ _ _ _ _ _ _ _ _ Hrun
                   (getCountryByIp_error _ _ _ _ _ Hopen Hdb)).
        apply IH.
Qed.

(** X11. For a configuration the startup validation accepted whose
    default country has at least two targets, and a database file that
    opens, [getResult] returns a configured target for every line, every
    answer of the network and every draw: it neither panics nor leaves the
    process. *)
Theorem X11_two_default_targets_make_the_resolver_total
  (uu : string -> string) (net : Collaborators) (rnd : nat -> nat)
  (c : Context) (dflt : string) (g : Globals)
  (db : IP -> GoResult GeoRecord) (email : string) (w : World) :
  argsHandler uu c (initGlobals dflt) = Returned None g ->
  (forall l, destinationMap g !! defaultTarget g = Some l -> 2 <= length l) ->
  geoOpen net = Ok db ->
  exists t w',
    getResult net rnd g email w = Done t w'
    /\ configured (destinationMap g) t.
Proof.
  intros Hacc Htwo Hopen.
  destruct (argsHandler_valid uu _ _ _ Hacc) as (Hvalid & Hlen & l & Hl & _).
  assert (Hrun : exists t w', getResult net rnd g email w = Done t w').
  { unfold getResult, bind. rewrite (pickDefault_two_bytes _ _ _ Hlen).
    unfold mapIndex. rewrite Hl. change (default [] (Some l)) with l.
    assert (Hlt : rnd (draws w) mod 2 < length l).
    { pose proof (Htwo l Hl). pose proof (Nat.mod_upper_bound (rnd (draws w)) 2).
      lia. }
    apply lookup_lt_is_Some_2 in Hlt as [t0 Ht0].
    unfold sliceIndex. rewrite Ht0. unfold ret at 1.
    destruct (getEmailDomain email) as [domain|msg]; [|eauto].
    unfold getMx. cbv zeta. rewrite emit_then. unfold ret.
    destruct (LookupMX net domain) as [mxs|msg]; [|eauto].
    now apply (rangeMxs_returns net rnd g db). }
  destruct Hrun as (t & w' & Hrun). exists t, w'. split; [exact Hrun|].
  destruct (getResult_outcome net rnd g email w) as (_ & _ & _ & Ht).
  exact (Ht t w' Hrun).
Qed.

Lemma X11_two_default_targets_make_the_resolver_total_witness :
  exists t w',
    getResult (stubNet [mx1; mx2] dbFirstNoCountry) (always 1) exampleGlobals
      "user@example.com" world0 = Done t w'
    /\ configured (destinationMap exampleGlobals) t.
Proof.
  refine (X11_two_default_targets_make_the_resolver_total asciiOnly
            (stubNet [mx1; mx2] dbFirstNoCountry) (always 1)
            (mkContext false exampleMapping) "us" exampleGlobals
            dbFirstNoCountry "user@example.com" world0 _ _ eq_refl).
  - vm_compute. reflexivity.
  - intros l Hl. vm_compute in Hl. inversion Hl. simpl. lia.
Defined.

(** X15. For a configuration the startup validation accepted, the
    fallback pick draws one number and reads the default country's targets
    at index [draw mod 2]: it returns the target there when there is one,
    and panics with an index error otherwise. There is none exactly when
    the country has one target and the draw is odd; so with an even draw,
    or two targets or more, the pick returns the first or the second
    target. It never leaves the process. *)
Theorem X15_fallback_pick_of_an_accepted_configuration
  (uu : string -> string) (rnd : nat -> nat) (c : Context) (dflt : string)
  (g : Globals) (w : World) :
  argsHandler uu c (initGlobals dflt) = Returned None g ->
  exists l,
    destinationMap g !! defaultTarget g = Some l
    /\ pickDefault rnd g w
       = match l !! (rnd (draws w) mod 2) with
         | Some t => Done t (mkWorld (S (draws w)) (calls w))
         | None => Panicked "index out of range" (mkWorld (S (draws w)) (calls w))
         end
    /\ (l !! (rnd (draws w) mod 2) = None
        <-> length l = 1 /\ rnd (draws w) mod 2 = 1)
    /\ (pickDefault rnd g w
        = Panicked "index out of range" (mkWorld (S (draws w)) (calls w))
        <-> length l = 1 /\ rnd (draws w) mod 2 = 1)
    /\ (2 <= length l \/ rnd (draws w) mod 2 = 0 ->
        exists t,
          l !! (rnd (draws w) mod 2) = Some t
          /\ pickDefault rnd g w = Done t (mkWorld (S (draws w)) (calls w)))
    /\ (forall t w', pickDefault rnd g w = Done t w' ->
          l !! (rnd (draws w) mod 2) = Some t
          /\ w' = mkWorld (S (draws w)) (calls w)).
Proof.
  intros Hacc. destruct (pickDefault_of_valid uu c dflt g rnd w Hacc)
    as (l & Hl & Hne & Hpick).
  exists l. split; [exact Hl|]. split; [exact Hpick|]. rewrite Hpick.
  pose proof (Nat.mod_upper_bound (rnd (draws w)) 2) as Hlt.
  assert (Hnone : l !! (rnd (draws w) mod 2) = None
                  <-> length l = 1 /\ rnd (draws w) mod 2 = 1).
  { rewrite lookup_ge_None. destruct l as [|x l]; [contradiction|].
    simpl. lia. }
  split; [exact Hnone|].
  destruct (l !! (rnd (draws w) mod 2)) as [t|] eqn:Hi.
  - split; [|split].
    + split; [discriminate|]. intros H. apply Hnone in H. discriminate.
    + intros _. now exists t.
    + intros t' w' [= <- <-]. now split.
  - split; [|split].
    + split; [intros _; now apply Hnone | reflexivity].
    + intros H. exfalso. destruct (proj1 Hnone eq_refl) as [H1 H2]. lia.
    + discriminate.
Qed.

Lemma X15_fallback_pick_of_an_accepted_configuration_witness :
  exists l,
    destinationMap singleGlobals !! defaultTarget singleGlobals = Some l
    /\ pickDefault (always 1) singleGlobals world0
       = match l !! (always 1 0 mod 2) with
         | Some t => Done t (mkWorld 1 [])
         | None => Panicked "index out of range" (mkWorld 1 [])
         end
    /\ (l !! (always 1 0 mod 2) = None
        <-> length l = 1 /\ always 1 0 mod 2 = 1)
    /\ (pickDefault (always 1) singleGlobals world0
        = Panicked "index out of range" (mkWorld 1 [])
        <-> length l = 1 /\ always 1 0 mod 2 = 1)
    /\ (2 <= length l \/ always 1 0 mod 2 = 0 ->
        exists t,
          l !! (always 1 0 mod 2) = Some t
          /\ pickDefault (always 1) singleGlobals world0 = Done t (mkWorld 1 []))
    /\ (forall t w', pickDefault (always 1) singleGlobals world0 = Done t w' ->
          l !! (always 1 0 mod 2) = Some t /\ w' = mkWorld 1 []).
Proof.
  refine (X15_fallback_pick_of_an_accepted_configuration asciiOnly (always 1)
            (mkContext false singleMapping) "us" singleGlobals world0 _).
  vm_compute. reflexivity.
Defined.

(** X16. [getIp] makes one address lookup and never panics. A failed or
    empty lookup is an error; a single address is returned without
    drawing; of several addresses the one at index [draw mod n] is
    returned, which is always in range. *)
Theorem X16_getIp_picks_an_address_of_the_host
  (net : Collaborators) (rnd : nat -> nat) (mx : MX) (w : World) :
  let w1 := addCalls w [CallLookupIP (Host mx) (LookupIP net (Host mx))] in
  match LookupIP net (Host mx) with
  | Err _ | Ok [] => exists e, getIp net rnd mx w = Done (Err e) w1
  | Ok [ip] => getIp net rnd mx w = Done (Ok ip) w1
  | Ok ips =>
      exists ip,
        ips !! (rnd (draws w) mod length ips) = Some ip
        /\ getIp net rnd mx w = Done (Ok ip) (mkWorld (S (draws w)) (calls w1))
  end.
Proof.
  unfold getIp. cbv zeta. rewrite emit_then.
  destruct (LookupIP net (Host mx)) as [[|ip [|ip' ips]]|m];
    try (eexists; reflexivity); try reflexivity.
  set (l := ip :: ip' :: ips).
  change (length l =? 1)%nat with false. change (1 <? length l)%nat with true.
  cbv iota.
  assert (Hlt : rnd (draws w) mod length l < length l)
    by (apply Nat.mod_upper_bound; discriminate).
  apply lookup_lt_is_Some_2 in Hlt as [x Hx]. exists x. split; [exact Hx|].
  apply (pick_then rnd l Ok). rewrite pick_exact. simpl draws. now rewrite Hx.
Qed.

(** ** The connection handler: responses *)

Lemma serve_responses (net : Collaborators) (rnd : nat -> nat) (g : Globals)
  (fuel : nat) (incoming : string) (w w' : World) :
  String.length incoming < fuel ->
  serve net rnd fuel g incoming w = Done tt w' ->
  exists targets events,
    calls w' = calls w ++ events
    /\ written events = map genPostfixResponse targets
    /\ length targets = strings.Count incoming LF
    /\ Forall (configured (destinationMap g)) targets
    /\ last events = Some ConnClose.
Proof.
  revert incoming w. induction fuel as [|fuel IH]; intros incoming w Hlen H; [lia|].
  simpl in H. destruct (ReadBytes incoming LF) as [[d [e|]] r] eqn:Hr.
  - apply ReadBytes_error in Hr as [_ Hc]. inversion H; subst.
    exists [], [ConnClose]. rewrite Hc. repeat split. constructor.
  - apply ReadBytes_nil_error in Hr as (line & -> & Hc & ->).
    unfold bind in H. rewrite sliceTo_line in H.
    destruct (getResult net rnd g line w) as [t w1|m w1|m w1] eqn:Hres;
      try discriminate.
    cbv beta delta [emit] iota in H.
    assert (Hr : String.length r < fuel).
    { rewrite length_append, length_append in Hlen. simpl in Hlen. lia. }
    destruct (IH _ _ Hr H) as (targets & events & Hcalls & Hw & Hn & Hall & Hlast).
    destruct (getResult_outcome net rnd g line w) as (ev0 & Hw0 & Hc0 & Ht0).
    rewrite Hres in Hc0. simpl in Hc0.
    exists (t :: targets), (ev0 ++ ConnWrite (genPostfixResponse t) :: events).
    split; [|split; [|split; [|split]]].
    + rewrite Hcalls. simpl. rewrite Hc0. now rewrite <- !app_assoc.
    + rewrite written_app, Hw0. simpl. now rewrite Hw.
    + rewrite append_line, Count_join, Hc. simpl. now rewrite Hn.
    + constructor; [exact (Ht0 t w1 Hres) | exact Hall].
    + rewrite last_app. simpl.
      destruct events as [|e0 events]; [discriminate|]. simpl in *.
      now rewrite Hlast.
Qed.

(** X13. When the handler returns, it has written one response for every
    newline-terminated line it was sent, in the order written, each of
    the form ["200 relay:[" t "]\n"] with [t] a target of the table; bytes
    after the last newline get no response; and the last thing it did was
    to close the connection. *)
Theorem X13_one_response_per_line
  (net : Collaborators) (rnd : nat -> nat) (g : Globals)
  (incoming : string) (w w' : World) :
  handleConnection net rnd g incoming w = Done tt w' ->
  exists targets events,
    calls w' = calls w ++ events
    /\ written events = map genPostfixResponse targets
    /\ length targets = strings.Count incoming LF
    /\ Forall (configured (destinationMap g)) targets
    /\ last events = Some ConnClose.
Proof.
  intros H. apply (serve_responses net rnd g (S (String.length incoming))).
  - lia.
  - exact H.
Qed.

Lemma X13_one_response_per_line_witness :
  exists targets events,
    [CallLookupMX "example.com" (Ok [mx1]);
     CallLookupIP (Host mx1) (Ok [ip1]);
     CallGeoOpen true;
     CallGeoCountry ip1 (Ok (mkGeoRecord "DE"));
     ConnWrite (wireLine "200 relay:[10.0.0.3]");
     ConnWrite (wireLine "200 relay:[10.0.0.2]");
     ConnClose] = [] ++ events
    /\ written events = map genPostfixResponse targets
    /\ length targets
       = strings.Count (wireLine "user@example.com" +:+ wireLine "x" +:+ "tail") LF
    /\ Forall (configured (destinationMap exampleGlobals)) targets
    /\ last events = Some ConnClose.
Proof.
  refine (X13_one_response_per_line (stubNet [mx1] dbFirstDE) (always 1)
            exampleGlobals
            (wireLine "user@example.com" +:+ wireLine "x" +:+ "tail")
            world0
            (mkWorld 3
               [CallLookupMX "example.com" (Ok [mx1]);
                CallLookupIP (Host mx1) (Ok [ip1]);
                CallGeoOpen true;
                CallGeoCountry ip1 (Ok (mkGeoRecord "DE"));
                ConnWrite (wireLine "200 relay:[10.0.0.3]");
                ConnWrite (wireLine "200 relay:[10.0.0.2]");
                ConnClose]) _).
  vm_compute. reflexivity.
Defined.

Lemma append_assoc' (a b c : string) : (a +:+ b) +:+ c = a +:+ (b +:+ c).
Proof.
  induction a as [|x a IH]; [reflexivity|].
  change (String x ((a +:+ b) +:+ c) = String x (a +:+ (b +:+ c))).
  now rewrite IH.
Qed.

Lemma Count_append (a b : string) (sep : ascii) :
  strings.Count (a +:+ b) sep = strings.Count a sep + strings.Count b sep.
Proof.
  induction a as [|x a IH]; [reflexivity|].
  change (strings.Count (String x (a +:+ b)) sep
          = strings.Count (String x a) sep + strings.Count b sep).
  simpl. rewrite IH. lia.
Qed.

Lemma append_cancel_r (a b suffix : string) :
  a +:+ suffix = b +:+ suffix -> a = b.
Proof.
  revert b. induction a as [|x a IH]; intros [|y b] H.
  - reflexivity.
  - apply (f_equal String.length) in H.
    rewrite !length_append in H. simpl in H. lia.
  - apply (f_equal String.length) in H.
    rewrite !length_append in H. simpl in H. lia.
  - change (String x (a +:+ suffix) = String y (b +:+ suffix)) in H.
    inversion H. f_equal. now apply IH.
Qed.

(** X14. A response can be read back. For a target without a newline the
    response is exactly one line for a reader that splits at ['\n'] the way
    the handler itself does: it is read whole, without error, and what
    follows it is left for the next read. And the response determines the
    target: different targets give different responses. *)
Theorem X14_response_is_one_line_that_names_the_target :
  (forall t rest,
      strings.Count t LF = 0 ->
      ReadBytes (genPostfixResponse t +:+ rest) LF
      = (genPostfixResponse t, None, rest))
  /\ (forall a b, genPostfixResponse a = genPostfixResponse b -> a = b).
Proof.
  split.
  - intros t rest Ht.
    assert (Hshape : genPostfixResponse t
                     = ("200 relay:[" +:+ t +:+ "]") +:+ String LF EmptyString).
    { unfold genPostfixResponse. now rewrite !append_assoc'. }
    rewrite Hshape, append_line. apply ReadBytes_line.
    rewrite !Count_append, Ht. reflexivity.
  - intros a b H. unfold genPostfixResponse in H.
    simpl in H. inversion H as [H'].
    change (a +:+ ("]" +:+ String LF EmptyString)
            = b +:+ ("]" +:+ String LF EmptyString)) in H'.
    now apply append_cancel_r in H'.
Qed.

Lemma X14_response_is_one_line_that_names_the_target_witness :
  ReadBytes (genPostfixResponse "10.0.0.3" +:+ genPostfixResponse "10.0.0.1") LF
  = (genPostfixResponse "10.0.0.3", None, genPostfixResponse "10.0.0.1").
Proof.
  exact (proj1 X14_response_is_one_line_that_names_the_target
           "10.0.0.3" (genPostfixResponse "10.0.0.1") eq_refl).
Defined.

Lemma serve_aborted (net : Collaborators) (rnd : nat -> nat) (g : Globals)
  (fuel : nat) (incoming : string) (w : World) :
  String.length incoming < fuel ->
  aborted (serve net rnd fuel g incoming w) = true ->
  exists targets events,
    calls (worldOf (serve net rnd fuel g incoming w)) = calls w ++ events
    /\ written events = map genPostfixResponse targets
    /\ length targets < strings.Count incoming LF
    /\ Forall (configured (destinationMap g)) targets.
Proof.
  revert incoming w. induction fuel as [|fuel IH]; intros incoming w Hlen; [lia|].
  simpl. destruct (ReadBytes incoming LF) as [[d [e|]] r] eqn:Hr;
    [discriminate|].
  apply ReadBytes_nil_error in Hr as (line & -> & Hc & ->).
  assert (Hcount : strings.Count ((line +:+ String LF EmptyString) +:+ r) LF
                   = S (strings.Count r LF)).
  { rewrite append_line, Count_join, Hc. reflexivity. }
  rewrite Hcount.
  unfold bind. rewrite sliceTo_line.
  destruct (getResult_outcome net rnd g line w) as (ev0 & Hw0 & Hc0 & Ht0).
  destruct (getResult net rnd g line w) as [t w1|m w1|m w1] eqn:Hres.
  - cbv beta delta [emit] iota. intros Hab.
    assert (Hr : String.length r < fuel).
    { rewrite length_append, length_append in Hlen. simpl in Hlen. lia. }
    destruct (IH _ _ Hr Hab) as (targets & events & Hcalls & Hw & Hn & Hall).
    simpl in Hc0.
    exists (t :: targets), (ev0 ++ ConnWrite (genPostfixResponse t) :: events).
    split; [|split; [|split]].
    + rewrite Hcalls. simpl. rewrite Hc0. now rewrite <- !app_assoc.
    + rewrite written_app, Hw0. simpl. now rewrite Hw.
    + simpl. lia.
    + constructor; [exact (Ht0 t w1 eq_refl) | exact Hall].
  - intros _. exists [], ev0. simpl in *. repeat split; auto. lia.
  - intros _. exists [], ev0. simpl in *. repeat split; auto. lia.
Qed.

(** X18. When the handler does not return (the resolver panicked or left
    the process), fewer responses than complete lines were written: the
    line being resolved got none, nor did any line after it; what was
    written before are responses with configured targets. *)
Theorem X18_an_abort_leaves_lines_unanswered
  (net : Collaborators) (rnd : nat -> nat) (g : Globals)
  (incoming : string) (w : World) :
  aborted (handleConnection net rnd g incoming w) = true ->
  exists targets events,
    calls (worldOf (handleConnection net rnd g incoming w)) = calls w ++ events
    /\ written events = map genPostfixResponse targets
    /\ length targets < strings.Count incoming LF
    /\ Forall (configured (destinationMap g)) targets.
Proof.
  intros H. apply (serve_aborted net rnd g (S (String.length incoming)));
    [lia | exact H].
Qed.

Lemma X18_an_abort_leaves_lines_unanswered_witness :
  exists targets events,
    calls (worldOf (handleConnection (stubNetNoDatabase [mx1]) (always 0)
                      exampleGlobals
                      (wireLine "postmaster" +:+ wireLine "user@example.com"
                       +:+ wireLine "other@example.org")
                      world0))
    = [] ++ events
    /\ written events = map genPostfixResponse targets
    /\ length targets
       < strings.Count (wireLine "postmaster" +:+ wireLine "user@example.com"
                        +:+ wireLine "other@example.org") LF
    /\ Forall (configured (destinationMap exampleGlobals)) targets.
Proof.
  refine (X18_an_abort_leaves_lines_unanswered (stubNetNoDatabase [mx1]) (always 0)
            exampleGlobals
            (wireLine "postmaster" +:+ wireLine "user@example.com"
             +:+ wireLine "other@example.org")
            world0 _).
  vm_compute. reflexivity.
Defined.

(** X17. The default country is mandatory and must have two bytes once
    upper-cased: with a default flag that is empty (not given) or of any
    other length, [main] leaves the process before [net.Listen], whatever
    the directives are. *)
Theorem X17_default_flag_is_mandatory
  (uu : string -> string) (c : Context) (dflt : string) :
  String.length (strings.ToUpper uu dflt) <> 2 ->
  mainStart uu c dflt = ProcessExit 1.
Proof.
  intros Hlen. unfold mainStart.
  destruct (argsHandler uu c (initGlobals dflt)) as [|[e|] g] eqn:Ha;
    try reflexivity.
  destruct (argsHandler_valid uu _ _ _ Ha) as (_ & Hg & _).
  apply argsHandler_nil_error in Ha as (dm & _ & -> & _). simpl in Hg.
  contradiction.
Qed.

Lemma X17_default_flag_is_mandatory_witness :
  mainStart asciiOnly (mkContext false exampleMapping) EmptyString = ProcessExit 1
  /\ mainStart asciiOnly (mkContext false ["USA:10.0.0.1"; "US:10.0.0.1"]) "usa"
     = ProcessExit 1.
Proof.
  split.
  - apply (X17_default_flag_is_mandatory asciiOnly
             (mkContext false exampleMapping) EmptyString).
    vm_compute. lia.
  - apply (X17_default_flag_is_mandatory asciiOnly
             (mkContext false ["USA:10.0.0.1"; "US:10.0.0.1"]) "usa").
    vm_compute. lia.
Defined.

(** * Lines, startup validation and the scenario, case by case *)

(** ** Lines with and without one ['@'] *)

(** C4 (amended). A line that does not split at ['@'] into exactly two
    parts (no ['@'], or more than one) gets the fallback and nothing more:
    [getResult] is the fallback pick, no MX lookup or other call is made,
    and a destination it returns is a target of the default country. A
    line that splits into exactly two parts goes on to the MX lookup with
    the second part as the domain, whatever the parts are: once the
    fallback is picked, the MX lookup of that domain is made and, when it
    answers, the loop over its hosts decides. This holds for an empty
    first part (['@domain']) and for an empty second part (['user@'],
    whose domain is the empty string) as well. *)
Theorem C4_malformed_line_gives_fallback
  (net : Collaborators) (rnd : nat -> nat) (g : Globals)
  (email : string) (w : World) :
  (length (strings.Split email at_sign) <> 2 ->
   getResult net rnd g email w = pickDefault rnd g w
   /\ calls (worldOf (getResult net rnd g email w)) = calls w
   /\ (forall t w', getResult net rnd g email w = Done t w' ->
         t ∈ mapIndex (destinationMap g) (defaultTarget g)))
  /\ (length (strings.Split email at_sign) = 2 ->
      let domain := nth 1 (strings.Split email at_sign) EmptyString in
      getResult net rnd g email w
      = match pickDefault rnd g w with
        | Done t w1 =>
            let w2 := addCalls w1 [CallLookupMX domain (LookupMX net domain)] in
            match LookupMX net domain with
            | Err _ => Done t w2
            | Ok mxs => rangeMxs net rnd g mxs t w2
            end
        | Panicked msg w1 => Panicked msg w1
        | Exited msg w1 => Exited msg w1
        end)
  /\ (forall domain, strings.Count domain at_sign = 0 ->
        strings.Split (String at_sign domain) at_sign = [EmptyString; domain])
  /\ (forall user, strings.Count user at_sign = 0 ->
        strings.Split (user +:+ String at_sign EmptyString) at_sign
        = [user; EmptyString]).
Proof.
  split; [|split; [|split]].
  - intros Hlen. exact (getResult_fallback_only net rnd g email w Hlen).
  - intros Hlen.
    destruct (strings.Split email at_sign) as [|a [|b [|x l]]] eqn:Hs;
      try discriminate.
    apply Split_two_inv in Hs as (-> & Ha & Hb). cbv zeta. simpl nth.
    exact (getResult_one_at net rnd g a b w Ha Hb).
  - intros domain Hd.
    exact (Split_directive EmptyString domain at_sign eq_refl Hd).
  - intros user Hu. exact (Split_directive user EmptyString at_sign Hu eq_refl).
Qed.

Lemma C4_malformed_line_gives_fallback_witness :
  getResult (stubNet [mx1] dbFirstDE) (always 0) exampleGlobals
    "a@b@example.com" world0
  = pickDefault (always 0) exampleGlobals world0
  /\ getResult (stubNet [mx1] dbFirstDE) (always 0) exampleGlobals
       "@example.com" world0
     = rangeMxs (stubNet [mx1] dbFirstDE) (always 0) exampleGlobals [mx1] "10.0.0.1"
         (mkWorld 1 [CallLookupMX "example.com" (Ok [mx1])])
  /\ getResult (stubNet [mx1] dbFirstDE) (always 0) exampleGlobals
       "user@" world0
     = Done "10.0.0.1" (mkWorld 1 [CallLookupMX EmptyString (Err "no such host")]).
Proof.
  split; [|split].
  - refine (proj1 (proj1 (C4_malformed_line_gives_fallback
              (stubNet [mx1] dbFirstDE) (always 0) exampleGlobals
              "a@b@example.com" world0) _)).
    vm_compute. lia.
  - exact (proj1 (proj2 (C4_malformed_line_gives_fallback
             (stubNet [mx1] dbFirstDE) (always 0) exampleGlobals
             "@example.com" world0)) eq_refl).
  - exact (proj1 (proj2 (C4_malformed_line_gives_fallback
             (stubNet [mx1] dbFirstDE) (always 0) exampleGlobals
             "user@" world0)) eq_refl).
Defined.

(** ** Startup validation, every way it fails *)

Lemma addMappings_error_inv (uu : string -> string) (mapping : list string)
  (dm dm1 : gmap string (list string)) (e : ConfigError) :
  addMappings uu mapping dm = (dm1, Some e) ->
  exists good bad rest,
    mapping = good ++ bad :: rest
    /\ addMappings uu good dm = (dm1, None)
    /\ addMapping uu bad dm1 = inl e.
Proof.
  revert dm. induction mapping as [|value more IH]; simpl; intros dm H.
  - discriminate.
  - destruct (addMapping uu value dm) as [e'|dm'] eqn:H1.
    + inversion H; subst. now exists [], value, more.
    + destruct (IH _ H) as (good & bad & rest & -> & Hg & Hb).
      exists (value :: good), bad, rest. simpl. rewrite H1. auto.
Qed.

(** C8 (amended). Startup validation fails, and [main] leaves the process
    before [net.Listen], in these cases and no other (help not being asked
    for): the mapping is empty; or the loop refuses a directive, whatever
    the default is, with the error of the first directive it refuses; or
    every directive is taken and the upper-cased default is not a key of
    the table. So when every directive of a mapping that is not empty is
    taken, it fails if and only if the upper-cased default is not a key;
    and a default country that is the country of no directive is always
    refused before [net.Listen]. *)
Theorem C8_default_must_be_a_key
  (uu : string -> string) (c : Context) (dflt : string) :
  (forall dm, flagHelp c = false -> flagTarget c <> [] ->
     addMappings uu (flagTarget c) ∅ = (dm, None) ->
     ((exists e g, argsHandler uu c (initGlobals dflt) = Returned (Some e) g)
        <-> dm !! strings.ToUpper uu dflt = None)
     /\ (mainStart uu c dflt = ProcessExit 1
         <-> dm !! strings.ToUpper uu dflt = None))
  /\ (flagHelp c = false -> flagTarget c = [] ->
      argsHandler uu c (initGlobals dflt)
      = Returned (Some EmptyMapping) (initGlobals dflt)
      /\ mainStart uu c dflt = ProcessExit 1)
  /\ (forall good bad rest dm1 e,
        flagHelp c = false -> flagTarget c = good ++ bad :: rest ->
        addMappings uu good ∅ = (dm1, None) ->
        addMapping uu bad dm1 = inl e ->
        argsHandler uu c (initGlobals dflt)
        = Returned (Some e) (mkGlobals dm1 dflt)
        /\ mainStart uu c dflt = ProcessExit 1)
  /\ (flagHelp c = false ->
      ((exists e g, argsHandler uu c (initGlobals dflt) = Returned (Some e) g)
       <-> flagTarget c = []
           \/ (exists good bad rest dm1 e,
                 flagTarget c = good ++ bad :: rest
                 /\ addMappings uu good ∅ = (dm1, None)
                 /\ addMapping uu bad dm1 = inl e)
           \/ (exists dm, addMappings uu (flagTarget c) ∅ = (dm, None)
                          /\ dm !! strings.ToUpper uu dflt = None)))
  /\ ((forall value, value ∈ flagTarget c ->
         countryOf uu value <> strings.ToUpper uu dflt) ->
      mainStart uu c dflt = ProcessExit 1).
Proof.
  assert (Hempty : flagHelp c = false -> flagTarget c = [] ->
            argsHandler uu c (initGlobals dflt)
            = Returned (Some EmptyMapping) (initGlobals dflt)).
  { intros Hh Hm. unfold argsHandler. now rewrite Hh, Hm. }
  assert (Hbad : forall good bad rest dm1 e,
            flagHelp c = false -> flagTarget c = good ++ bad :: rest ->
            addMappings uu good ∅ = (dm1, None) ->
            addMapping uu bad dm1 = inl e ->
            argsHandler uu c (initGlobals dflt)
            = Returned (Some e) (mkGlobals dm1 dflt)).
  { intros good bad rest dm1 e Hh Ht Hg Hb. unfold argsHandler.
    rewrite Hh, Ht. simpl destinationMap.
    rewrite (addMappings_app_error uu _ rest _ _ _ _ Hg Hb).
    destruct good; reflexivity. }
  split; [|split; [|split; [|split]]].
  - exact (proj1 (default_key_decides uu c dflt)).
  - intros Hh Hm. split; [now apply Hempty|].
    unfold mainStart. now rewrite (Hempty Hh Hm).
  - intros good bad rest dm1 e Hh Ht Hg Hb.
    split; [now apply (Hbad good bad rest)|].
    unfold mainStart. now rewrite (Hbad good bad rest dm1 e Hh Ht Hg Hb).
  - intros Hh. split.
    + intros (e & g & Ha).
      destruct (flagTarget c) as [|v l] eqn:Hm; [now left|]. right.
      destruct (addMappings uu (v :: l) ∅) as [dm [e'|]] eqn:Hl.
      * left. apply addMappings_error_inv in Hl
          as (good & bad & rest & Heq & Hg & Hb).
        now exists good, bad, rest, dm, e'.
      * right. exists dm. split; [reflexivity|].
        rewrite (argsHandler_accepts uu c (initGlobals dflt) dm Hh) in Ha.
        -- simpl in Ha.
           destruct (dm !! strings.ToUpper uu dflt); [discriminate | reflexivity].
        -- rewrite Hm. discriminate.
        -- rewrite Hm. exact Hl.
    + intros [Hm | [(good & bad & rest & dm1 & e & Ht & Hg & Hb) | (dm & Hl & Hk)]].
      * rewrite (Hempty Hh Hm). eauto.
      * rewrite (Hbad good bad rest dm1 e Hh Ht Hg Hb). eauto.
      * destruct (flagTarget c) as [|v l] eqn:Hm.
        -- rewrite (Hempty Hh eq_refl). eauto.
        -- rewrite (argsHandler_accepts uu c (initGlobals dflt) dm Hh).
           ++ simpl. rewrite Hk. eauto.
           ++ rewrite Hm. discriminate.
           ++ rewrite Hm. exact Hl.
  - exact (proj2 (default_key_decides uu c dflt)).
Qed.

Lemma C8_default_must_be_a_key_witness :
  (((exists e g, argsHandler asciiOnly (mkContext false exampleMapping)
                   (initGlobals "fr") = Returned (Some e) g)
      <-> exampleTable !! strings.ToUpper asciiOnly "fr" = None)
   /\ (mainStart asciiOnly (mkContext false exampleMapping) "fr" = ProcessExit 1
       <-> exampleTable !! strings.ToUpper asciiOnly "fr" = None))
  /\ (argsHandler asciiOnly (mkContext false []) (initGlobals "us")
      = Returned (Some EmptyMapping) (initGlobals "us")
      /\ mainStart asciiOnly (mkContext false []) "us" = ProcessExit 1)
  /\ (argsHandler asciiOnly (mkContext false ["US:10.0.0.1"; "bogus"])
        (initGlobals "us")
      = Returned (Some (InvalidMappingFormat "bogus"))
          (mkGlobals (<["US" := ["10.0.0.1"]]> ∅) "us")
      /\ mainStart asciiOnly (mkContext false ["US:10.0.0.1"; "bogus"]) "us"
         = ProcessExit 1)
  /\ mainStart asciiOnly (mkContext false exampleMapping) "fr" = ProcessExit 1.
Proof.
  split; [|split; [|split]].
  - refine (proj1 (C8_default_must_be_a_key asciiOnly
                     (mkContext false exampleMapping) "fr")
              exampleTable eq_refl _ _).
    + discriminate.
    + vm_compute. reflexivity.
  - exact (proj1 (proj2 (C8_default_must_be_a_key asciiOnly
                           (mkContext false []) "us")) eq_refl eq_refl).
  - refine (proj1 (proj2 (proj2 (C8_default_must_be_a_key asciiOnly
                     (mkContext false ["US:10.0.0.1"; "bogus"]) "us")))
              ["US:10.0.0.1"] "bogus" [] (<["US" := ["10.0.0.1"]]> ∅)
              (InvalidMappingFormat "bogus") eq_refl eq_refl _ _);
      vm_compute; reflexivity.
  - apply (proj2 (proj2 (proj2 (proj2 (C8_default_must_be_a_key asciiOnly
                     (mkContext false exampleMapping) "fr"))))).
    intros value Hin. simpl in Hin.
    repeat (apply elem_of_cons in Hin as [->|Hin]); try (vm_compute; discriminate).
    now apply elem_of_nil in Hin.
Defined.

(** ** The scenario, with every way the country lookup can fail *)

(** C7 (amended). The table is the one built from ["US:10.0.0.1"],
    ["US:10.0.0.2"], ["DE:10.0.0.3"] with default [US]; [example.com] has
    one MX host with one address. When the database puts the address in
    [DE], the line [user@example.com] is answered with
    ["200 relay:[10.0.0.3]\n"] and nothing else is written. When the
    database file is open and the country lookup fails, because
    [db.Country] returns an error or because the record it returns names
    no country of the table (a record without a country has the empty
    code), the answer is ["200 relay:[10.0.0.1]\n"] or
    ["200 relay:[10.0.0.2]\n"]. When the database file cannot be opened,
    nothing is written: the process is left through [log.Fatalf]. *)
Theorem C7_end_to_end
  (uu : string -> string) (net : Collaborators) (rnd : nat -> nat)
  (mx : MX) (ip : IP) (w : World) :
  LookupMX net "example.com" = Ok [mx] ->
  LookupIP net (Host mx) = Ok [ip] ->
  argsHandler uu (mkContext false exampleMapping) (initGlobals "US")
  = Returned None exampleGlobals
  /\ (forall db r, geoOpen net = Ok db -> db ip = Ok r -> IsoCode r = "DE" ->
        exists w',
          handleConnection net rnd exampleGlobals (wireLine "user@example.com") w
          = Done tt w'
          /\ written (calls w')
             = written (calls w) ++ [wireLine "200 relay:[10.0.0.3]"])
  /\ (forall db e, geoOpen net = Ok db -> db ip = Err e ->
        exists w',
          handleConnection net rnd exampleGlobals (wireLine "user@example.com") w
          = Done tt w'
          /\ (written (calls w')
              = written (calls w) ++ [wireLine "200 relay:[10.0.0.1]"]
              \/ written (calls w')
                 = written (calls w) ++ [wireLine "200 relay:[10.0.0.2]"]))
  /\ (forall db r, geoOpen net = Ok db -> db ip = Ok r ->
        destinationMap exampleGlobals !! IsoCode r = None ->
        exists w',
          handleConnection net rnd exampleGlobals (wireLine "user@example.com") w
          = Done tt w'
          /\ (written (calls w')
              = written (calls w) ++ [wireLine "200 relay:[10.0.0.1]"]
              \/ written (calls w')
                 = written (calls w) ++ [wireLine "200 relay:[10.0.0.2]"]))
  /\ (destinationMap exampleGlobals !! EmptyString = None)
  /\ (forall m, geoOpen net = Err m ->
        exists w',
          handleConnection net rnd exampleGlobals (wireLine "user@example.com") w
          = Exited ("Open GeoIP DB file error: " +:+ m) w'
          /\ written (calls w') = written (calls w)).
Proof.
  intros Hmx Hip. split; [vm_compute; reflexivity|].
  split; [|split; [|split; [|split; [reflexivity|]]]].
  - intros db r Hopen Hr Hiso.
    exact (proj1 (proj2 (scenario_with_open_database uu net rnd mx ip db w
                           Hmx Hip Hopen)) r Hr Hiso).
  - intros db e Hopen He.
    exact (proj2 (proj2 (scenario_with_open_database uu net rnd mx ip db w
                           Hmx Hip Hopen)) e He).
  - intros db r Hopen Hr Hnone.
    destruct (pickDefault_example rnd w) as (t & Ht & Hpick).
    unfold handleConnection.
    change (wireLine "user@example.com")
      with ("user@example.com" +:+ String LF EmptyString).
    change (String.length ("user@example.com" +:+ String LF EmptyString)) with 17.
    rewrite (serve_line net rnd _ exampleGlobals "user@example.com" EmptyString w)
      by reflexivity.
    assert (Hres : getResult net rnd exampleGlobals "user@example.com" w
      = rangeMxs net rnd exampleGlobals [mx] t
          (addCalls (mkWorld (S (draws w)) (calls w))
             [CallLookupMX "example.com" (Ok [mx])])).
    { apply (getResult_resolved net rnd exampleGlobals "user" "example.com");
        auto. }
    unfold bind at 1. rewrite Hres.
    rewrite (rangeMxs_country_answer net rnd _ _ _ _ _ _ _ _ _
               (getIp_one_address net rnd _ _ _ Hip)
               (getCountryByIp_record net _ _ _ _ Hopen Hr)).
    rewrite Hnone. rewrite emit_then. rewrite serve_end by reflexivity.
    eexists. split; [reflexivity|]. cbn [calls addCalls draws].
    rewrite !written_app. cbn. rewrite !app_nil_r.
    destruct Ht as [-> | ->]; [now left | now right].
  - intros m Hopen.
    destruct (pickDefault_example rnd w) as (t & Ht & Hpick).
    unfold handleConnection.
    change (wireLine "user@example.com")
      with ("user@example.com" +:+ String LF EmptyString).
    change (String.length ("user@example.com" +:+ String LF EmptyString)) with 17.
    rewrite (serve_line net rnd _ exampleGlobals "user@example.com" EmptyString w)
      by reflexivity.
    assert (Hres : getResult net rnd exampleGlobals "user@example.com" w
      = rangeMxs net rnd exampleGlobals [mx] t
          (addCalls (mkWorld (S (draws w)) (calls w))
             [CallLookupMX "example.com" (Ok [mx])])).
    { apply (getResult_resolved net rnd exampleGlobals "user" "example.com");
        auto. }
    unfold bind at 1. rewrite Hres.
    rewrite (rangeMxs_exit net rnd _ _ _ _ _ _ _ _ _
               (getIp_one_address net rnd _ _ _ Hip)
               (getCountryByIp_open_fails net _ _ _ Hopen)).
    eexists. split; [reflexivity|]. cbn [calls addCalls draws].
    rewrite !written_app. cbn. now rewrite !app_nil_r.
Qed.

(** C7: the database file cannot be opened; the line gets no response and
    the process is left. *)
Lemma C7_no_response_without_database :
  handleConnection (stubNetNoDatabase [mx1]) (always 0) exampleGlobals
    (wireLine "user@example.com") world0
  = Exited
      "Open GeoIP DB file error: open GeoLite2-Country.mmdb: no such file or directory"
      (mkWorld 1
         [CallLookupMX "example.com" (Ok [mx1]);
          CallLookupIP (Host mx1) (Ok [ip1]);
          CallGeoOpen false])
  /\ written
       [CallLookupMX "example.com" (Ok [mx1]);
        CallLookupIP (Host mx1) (Ok [ip1]);
        CallGeoOpen false] = [].
Proof. vm_compute. split; reflexivity. Qed.

Lemma C7_end_to_end_witness :
  (exists w',
      handleConnection (stubNet [mx1] dbFirstDE) (always 1) exampleGlobals
        (wireLine "user@example.com") world0 = Done tt w'
      /\ written (calls w') = [wireLine "200 relay:[10.0.0.3]"])
  /\ (exists w',
        handleConnection (stubNet [mx1] dbFirstFails) (always 1) exampleGlobals
          (wireLine "user@example.com") world0 = Done tt w'
        /\ (written (calls w') = [wireLine "200 relay:[10.0.0.1]"]
            \/ written (calls w') = [wireLine "200 relay:[10.0.0.2]"]))
  /\ (exists w',
        handleConnection (stubNet [mx1] dbFirstNoCountry) (always 1) exampleGlobals
          (wireLine "user@example.com") world0 = Done tt w'
        /\ (written (calls w') = [wireLine "200 relay:[10.0.0.1]"]
            \/ written (calls w') = [wireLine "200 relay:[10.0.0.2]"]))
  /\ (exists w',
        handleConnection (stubNetNoDatabase [mx1]) (always 1) exampleGlobals
          (wireLine "user@example.com") world0
        = Exited
            ("Open GeoIP DB file error: "
             +:+ "open GeoLite2-Country.mmdb: no such file or directory") w'
        /\ written (calls w') = []).
Proof.
  split; [|split; [|split]].
  - destruct (C7_end_to_end asciiOnly (stubNet [mx1] dbFirstDE) (always 1)
                mx1 ip1 world0 eq_refl eq_refl) as (_ & Hde & _).
    exact (Hde dbFirstDE (mkGeoRecord "DE") eq_refl eq_refl eq_refl).
  - destruct (C7_end_to_end asciiOnly (stubNet [mx1] dbFirstFails) (always 1)
                mx1 ip1 world0 eq_refl eq_refl) as (_ & _ & Hfail & _).
    exact (Hfail dbFirstFails "lookup failed" eq_refl eq_refl).
  - destruct (C7_end_to_end asciiOnly (stubNet [mx1] dbFirstNoCountry) (always 1)
                mx1 ip1 world0 eq_refl eq_refl) as (_ & _ & _ & Hnone & _).
    exact (Hnone dbFirstNoCountry (mkGeoRecord EmptyString)
             eq_refl eq_refl eq_refl).
  - destruct (C7_end_to_end asciiOnly (stubNetNoDatabase [mx1]) (always 1)
                mx1 ip1 world0 eq_refl eq_refl) as (_ & _ & _ & _ & _ & Hexit).
    exact (Hexit "open GeoLite2-Country.mmdb: no such file or directory" eq_refl).
Defined.

(** ** Country tokens and the table built at startup *)

Lemma countryOf_directive (uu : string -> string) (c t : string) :
  strings.Count c colon = 0 -> strings.Count t colon = 0 ->
  countryOf uu (c +:+ String colon t) = strings.ToUpper uu c.
Proof.
  intros Hc Ht. unfold countryOf. now rewrite (Split_directive _ _ _ Hc Ht).
Qed.

(** A mapping of directives the loop takes is taken whole. *)
Lemma addMappings_taken (uu : string -> string) (mapping : list string)
  (dm0 : gmap string (list string)) :
  Forall (takenDirective uu) mapping ->
  exists dm, addMappings uu mapping dm0 = (dm, None).
Proof.
  intros H. revert dm0. induction H as [|value more Hv _ IH]; intros dm0.
  - now exists dm0.
  - destruct Hv as (c & t & -> & Hc & Ht & Hne & Hlen). simpl.
    assert (Hstep : addMapping uu (c +:+ String colon t) dm0
                    = inr (<[strings.ToUpper uu c
                             := mapIndex dm0 (strings.ToUpper uu c) ++ [t]]> dm0)).
    { apply addMapping_inr. exists c, t.
      rewrite (Split_directive _ _ _ Hc Ht). auto. }
    rewrite Hstep. apply IH.
Qed.

(** C10 (amended). What is checked of a country token is the byte length
    of its upper-cased form and nothing else: a directive [c:t] with a
    target that is not empty is taken exactly when [ToUpper c] has two
    bytes, whatever these bytes are. So every ASCII token of two bytes is
    taken, digits and symbols too (for an ASCII token the length does not
    change with the case); a token of two bytes outside ASCII is taken
    only if its upper-cased form still has two bytes. A mapping of such
    directives passes the loop, the keys of the table built at startup
    are exactly the upper-cased country tokens of the directives, each of
    two bytes, and with one of them as the default the validation
    succeeds: the token has become a key of [destinationMap]. *)
Theorem C10_country_is_any_two_bytes (uu : string -> string) :
  (forall c t dm,
      strings.Count c colon = 0 -> strings.Count t colon = 0 ->
      t <> EmptyString ->
      (String.length (strings.ToUpper uu c) = 2 <->
       addMapping uu (c +:+ String colon t) dm
       = inr (<[strings.ToUpper uu c
                := mapIndex dm (strings.ToUpper uu c) ++ [t]]> dm)))
  /\ (forall c, strings.isASCII c = true -> String.length c = 2 ->
        String.length (strings.ToUpper uu c) = 2)
  /\ (forall mapping dm,
        addMappings uu mapping ∅ = (dm, None) ->
        forall k,
          (is_Some (dm !! k)
           <-> exists value, value ∈ mapping /\ k = countryOf uu value)
          /\ (is_Some (dm !! k) -> String.length k = 2))
  /\ (forall mapping dflt,
        mapping <> [] -> Forall (takenDirective uu) mapping ->
        (exists value, value ∈ mapping
                       /\ countryOf uu value = strings.ToUpper uu dflt) ->
        exists dm,
          argsHandler uu (mkContext false mapping) (initGlobals dflt)
          = Returned None (mkGlobals dm (strings.ToUpper uu dflt))
          /\ mainStart uu (mkContext false mapping) dflt
             = ReachesListen (mkGlobals dm (strings.ToUpper uu dflt))
          /\ (forall value, value ∈ mapping ->
                is_Some (dm !! countryOf uu value)
                /\ String.length (countryOf uu value) = 2))
  /\ (forall c t,
        strings.Count c colon = 0 -> strings.Count t colon = 0 ->
        t <> EmptyString -> String.length (strings.ToUpper uu c) = 2 ->
        argsHandler uu (mkContext false [c +:+ String colon t]) (initGlobals c)
        = Returned None
            (mkGlobals (<[strings.ToUpper uu c := [t]]> ∅)
               (strings.ToUpper uu c))).
Proof.
  assert (Hkeys : forall mapping dm,
            addMappings uu mapping ∅ = (dm, None) ->
            forall k,
              (is_Some (dm !! k)
               <-> exists value, value ∈ mapping /\ k = countryOf uu value)
              /\ (is_Some (dm !! k) -> String.length k = 2)).
  { intros mapping dm Hm k. split.
    - rewrite (addMappings_keys uu _ _ _ k Hm). split.
      + intros [Hk|Hk]; [|exact Hk]. rewrite lookup_empty in Hk. now destruct Hk.
      + intros Hk. now right.
    - intros [l Hl].
      exact (proj1 (addMappings_valid uu _ _ _ validTable_empty Hm k l Hl)). }
  split; [|split; [|split; [|split]]].
  - intros c t dm Hc Ht Hne.
    exact (proj1 (country_token_two_bytes uu c t dm Hc Ht Hne)).
  - intros c Hascii Hlen. now rewrite ToUpper_ascii_length.
  - exact Hkeys.
  - intros mapping dflt Hne Hall (value & Hin & Hv).
    destruct (addMappings_taken uu mapping ∅ Hall) as [dm Hm].
    assert (Hk : is_Some (dm !! strings.ToUpper uu dflt)).
    { apply (Hkeys mapping dm Hm). exists value. split; [exact Hin | now symmetry]. }
    assert (Ha : argsHandler uu (mkContext false mapping) (initGlobals dflt)
                 = Returned None (mkGlobals dm (strings.ToUpper uu dflt))).
    { rewrite (argsHandler_accepts uu (mkContext false mapping)
                 (initGlobals dflt) dm eq_refl Hne Hm).
      simpl. destruct Hk as [l Hl]. now rewrite Hl. }
    exists dm. split; [exact Ha|]. split.
    + unfold mainStart. now rewrite Ha.
    + intros v Hv'.
      assert (Hs : is_Some (dm !! countryOf uu v)).
      { apply (Hkeys mapping dm Hm). now exists v. }
      split; [exact Hs | exact (proj2 (Hkeys mapping dm Hm _) Hs)].
  - intros c t Hc Ht Hne Hlen.
    rewrite (argsHandler_accepts uu (mkContext false [c +:+ String colon t])
               (initGlobals c)
               (<[strings.ToUpper uu c := [t]]> ∅) eq_refl).
    + simpl. now rewrite lookup_insert_eq.
    + discriminate.
    + simpl.
      rewrite (proj1 (proj1 (country_token_two_bytes uu c t ∅ Hc Ht Hne)) Hlen).
      unfold mapIndex. now rewrite lookup_empty.
Qed.

(** C10: the token [ı] has two bytes, but its upper-cased form ["I"] has
    one, and the directive is refused as an invalid country code. *)
Lemma C10_two_byte_token_refused :
  String.length dotlessI = 2
  /\ strings.ToUpper upperDotlessI dotlessI = "I"
  /\ argsHandler upperDotlessI
       (mkContext false [dotlessI +:+ ":10.0.0.9"]) (initGlobals dotlessI)
     = Returned (Some (InvalidCountryCode "I")) (initGlobals dotlessI)
  /\ mainStart upperDotlessI (mkContext false [dotlessI +:+ ":10.0.0.9"]) dotlessI
     = ProcessExit 1.
Proof. vm_compute. repeat split; reflexivity. Qed.

Lemma C10_country_is_any_two_bytes_witness :
  (String.length (strings.ToUpper asciiOnly "12") = 2 <->
   addMapping asciiOnly "12:10.0.0.9" ∅
   = inr (<["12" := ["10.0.0.9"]]> ∅))
  /\ String.length (strings.ToUpper asciiOnly "a1") = 2
  /\ argsHandler asciiOnly (mkContext false ["a1:10.0.0.9"]) (initGlobals "a1")
     = Returned None (mkGlobals (<["A1" := ["10.0.0.9"]]> ∅) "A1")
  /\ (exists dm,
        argsHandler asciiOnly (mkContext false ["12:10.0.0.9"; "a1:10.0.0.8"])
          (initGlobals "12")
        = Returned None (mkGlobals dm "12")
        /\ mainStart asciiOnly (mkContext false ["12:10.0.0.9"; "a1:10.0.0.8"]) "12"
           = ReachesListen (mkGlobals dm "12")
        /\ (forall value, value ∈ ["12:10.0.0.9"; "a1:10.0.0.8"] ->
              is_Some (dm !! countryOf asciiOnly value)
              /\ String.length (countryOf asciiOnly value) = 2)).
Proof.
  destruct (C10_country_is_any_two_bytes asciiOnly)
    as (Hstep & Hascii & _ & Hstart & Hone).
  split; [|split; [|split]].
  - refine (Hstep "12" "10.0.0.9" ∅ eq_refl eq_refl _). discriminate.
  - exact (Hascii "a1" eq_refl eq_refl).
  - refine (Hone "a1" "10.0.0.9" eq_refl eq_refl _ eq_refl). discriminate.
  - refine (Hstart ["12:10.0.0.9"; "a1:10.0.0.8"] "12" _ _ _).
    + discriminate.
    + repeat constructor.
      * exists "12", "10.0.0.9". repeat split; discriminate.
      * exists "a1", "10.0.0.8". repeat split; discriminate.
    + exists "12:10.0.0.9". split; [apply elem_of_cons; now left | reflexivity].
Defined.
